(** * The 10-K structure parser of [filing_agent/utils/filing_sections.py]

    A shallow embedding of [TenKStructureParser]: the content preprocessor,
    the chunk splitter, the section structure mapper with its fallback, the
    keyword search and the two table filters, with the properties the
    design document states about them.

    Text.  A Python [str] is modelled as a list of 8-bit characters.  Case
    mapping ([lower], [upper]), blanks ([strip]) and digits ([isdigit]) are
    Python's on the ASCII range; a character above 127 is a caseless,
    non-blank, non-digit symbol.  Python's [lower] does not keep the length
    of every text (U+0130 lower-cases to two code points), so the
    statements that take an offset found in [s.lower()] over to [s] are
    made for ASCII text ([ascii_only]), on which it does.

    Environment.  What the parser gets from outside is a parameter: the
    oracle behind [anthropic_client] (a function of the request, [None] for
    a failed call), the regular-expression engine, and the two things read
    from the BeautifulSoup tree, the plain text of the document and the
    tables found for a section.  A [dict] is an association list in
    insertion order. *)

From Stdlib Require Import String Ascii.
From Stdlib Require Import List Bool Arith ZArith Lia.
Import ListNotations.

Set Warnings "-register-all,-abstract-large-number".

(** ** Python string primitives *)

Module Py.

Definition str := list ascii.

(** A literal of the source. *)
Definition lit (s : string) : str := list_ascii_of_string s.

Definition nl : ascii := "010"%char.

Definition code (c : ascii) : N := N_of_ascii c.

(** [str.isspace] on one ASCII character: tab, line feed, vertical tab,
    form feed, carriage return, the four separators 28..31 and the space. *)
Definition is_space (c : ascii) : bool :=
  let n := code c in
  (((9 <=? n) && (n <=? 13)) || ((28 <=? n) && (n <=? 32)))%N.

Definition is_digit (c : ascii) : bool :=
  let n := code c in ((48 <=? n) && (n <=? 57))%N.

Definition lower_char (c : ascii) : ascii :=
  let n := code c in
  if ((65 <=? n) && (n <=? 90))%N then ascii_of_N (n + 32) else c.

Definition upper_char (c : ascii) : ascii :=
  let n := code c in
  if ((97 <=? n) && (n <=? 122))%N then ascii_of_N (n - 32) else c.

Definition lower (s : str) : str := map lower_char s.
Definition upper (s : str) : str := map upper_char s.

Fixpoint lstrip (s : str) : str :=
  match s with
  | [] => []
  | c :: s' => if is_space c then lstrip s' else s
  end.

Fixpoint rstrip (s : str) : str :=
  match s with
  | [] => []
  | c :: s' =>
      match rstrip s' with
      | [] => if is_space c then [] else [c]
      | r => c :: r
      end
  end.

(** [s.strip()] *)
Definition strip (s : str) : str := lstrip (rstrip s).

(** Truth value of a string: non-empty. *)
Definition truthy (s : str) : bool :=
  match s with [] => false | _ :: _ => true end.

Fixpoint str_eqb (a b : str) : bool :=
  match a, b with
  | [], [] => true
  | x :: a', y :: b' => Ascii.eqb x y && str_eqb a' b'
  | _, _ => false
  end.

Fixpoint prefixb (p s : str) : bool :=
  match p, s with
  | [], _ => true
  | _ :: _, [] => false
  | x :: p', y :: s' => Ascii.eqb x y && prefixb p' s'
  end.

(** Lowest offset at which [sub] occurs in [s], counted from [i]. *)
Fixpoint find_at (sub s : str) (i : nat) : option nat :=
  if prefixb sub s then Some i
  else match s with
       | [] => None
       | _ :: s' => find_at sub s' (S i)
       end.

(** [s.find(sub, start)]; [None] is Python's -1. *)
Definition find (s sub : str) (start : nat) : option nat :=
  if start <=? length s then find_at sub (skipn start s) start else None.

(** [sub in s] *)
Definition contains (sub s : str) : bool :=
  match find_at sub s 0 with Some _ => true | None => false end.

(** [any(m in s for m in markers)] *)
Definition any_in (markers : list str) (s : str) : bool :=
  existsb (fun m => contains m s) markers.

(** [s[a:b]] for non-negative [a] and [b]. *)
Definition slice (a b : nat) (s : str) : str := firstn (b - a) (skipn a s).

(** [s.split('\n')] *)
Fixpoint split_nl (s : str) : list str :=
  match s with
  | [] => [[]]
  | c :: s' =>
      if Ascii.eqb c nl then [] :: split_nl s'
      else match split_nl s' with
           | l :: ls => (c :: l) :: ls
           | [] => [[c]]
           end
  end.

(** ['\n'.join(ls)] *)
Fixpoint join_nl (ls : list str) : str :=
  match ls with
  | [] => []
  | [l] => l
  | l :: ls' => l ++ nl :: join_nl ls'
  end.

(** [s.isdigit()]: non-empty and made of digits. *)
Definition isdigit (s : str) : bool := truthy s && forallb is_digit s.

(** [int(s)] for a string of digits. *)
Definition int_of_digits (s : str) : N :=
  fold_left (fun acc c => (10 * acc + (code c - 48))%N) s 0%N.

(** A [dict] with string keys, in insertion order. *)
Definition dict (V : Type) := list (str * V).

Fixpoint dict_get {V} (k : str) (d : dict V) : option V :=
  match d with
  | [] => None
  | (k', v) :: r => if str_eqb k k' then Some v else dict_get k r
  end.

(** [d[k] = v]: an existing key keeps its place, a new one goes last. *)
Fixpoint dict_set {V} (k : str) (v : V) (d : dict V) : dict V :=
  match d with
  | [] => [(k, v)]
  | (k', v') :: r =>
      if str_eqb k k' then (k', v) :: r else (k', v') :: dict_set k v r
  end.

(** The characters of [s] that are not blank, in order. *)
Definition nonblank (s : str) : str := filter (fun c => negb (is_space c)) s.

Definition all_blank (s : str) : bool := forallb is_space s.

End Py.
Import Py.

(** ** The chunk splitter *)

Definition section_markers : list str :=
  map lit
    [ "PART I"; "PART II"; "PART III"; "PART IV";
      "Item 1."; "Item 2."; "Item 3."; "Item 4."; "Item 5."; "Item 6.";
      "Item 7."; "Item 8."; "Item 9.";
      "Item 10."; "Item 11."; "Item 12."; "Item 13."; "Item 14.";
      "Item 15."; "Item 16.";
      "SIGNATURES" ]%string.

(** State of the loop of [_split_content_intelligently]: the chunks
    flushed so far and the growing buffer [current_chunk]. *)
Record split_state := SplitState {
  chunks : list str;
  current_chunk : str
}.

Definition is_section_break (line : str) : bool :=
  let line_upper := upper (strip line) in
  any_in section_markers line_upper.

(** One iteration of [for line in lines]. *)
Definition split_step (max_chunk_size : Z) (st : split_state) (line : str)
  : split_state :=
  if ((Z.of_nat (length (current_chunk st)) + Z.of_nat (length line)
       >? max_chunk_size)%Z
      && is_section_break line
      && truthy (current_chunk st))%bool
  then {| chunks := chunks st ++ [strip (current_chunk st)];
          current_chunk := line ++ [nl] |}
  else {| chunks := chunks st;
          current_chunk := current_chunk st ++ line ++ [nl] |}.

Definition split_loop (max_chunk_size : Z) (lines : list str)
  (st : split_state) : split_state :=
  fold_left (split_step max_chunk_size) lines st.

Definition _split_content_intelligently (text_content : str)
  (max_chunk_size : Z) : list str :=
  let st := split_loop max_chunk_size (split_nl text_content)
              {| chunks := []; current_chunk := [] |} in
  if truthy (strip (current_chunk st))
  then chunks st ++ [strip (current_chunk st)]
  else chunks st.

(** The default of the source: [max_chunk_size = 50000]. *)
Definition default_max_chunk_size : Z := 50000%Z.

(** ** The content preprocessor *)

Definition xbrl_indicators : list str :=
  map lit [ "context id="; "xbrl"; "taxonomy"; "namespace"; "schema";
            "entity identifier" ]%string.

Definition xbrl_exit_indicators : list str :=
  map lit [ "part i"; "item 1"; "business"; "table of contents" ]%string.

Definition toc_indicators : list str :=
  map lit [ "table of contents"; "index"; "part i"; "part ii"; "part iii" ]%string.

Definition narrative_indicators : list str :=
  [ lit "forward-looking statements"; lit "item 1."; lit "part i - item 1";
    lit "business" ++ [nl] ++ lit "the company" ].

Definition alt_narrative_indicators : list str :=
  map lit [ "item 1. business"; "part i - item 1"; "underwriting for";
            "the company operates" ]%string.

Definition domain_words : list str :=
  map lit [ "company"; "business"; "operations"; "insurance"; "financial" ]%string.

(** The flags and the output of the scan of [_preprocess_filing_content]. *)
Record pre_state := PreState {
  in_xbrl_section : bool;
  in_toc_section : bool;
  found_narrative_start : bool;
  cleaned_lines : list str
}.

Definition pre_init : pre_state :=
  {| in_xbrl_section := false; in_toc_section := false;
     found_narrative_start := false; cleaned_lines := [] |}.

(** One iteration of [for i, line in enumerate(lines)]; every [continue]
    of the source is a branch that returns the state. *)
Definition pre_step (st : pre_state) (line : str) : pre_state :=
  let line_lower := lower (strip line) in
  if any_in xbrl_indicators line_lower then
    {| in_xbrl_section := true;
       in_toc_section := in_toc_section st;
       found_narrative_start := found_narrative_start st;
       cleaned_lines := cleaned_lines st |}
  else
    let in_xbrl :=
      if in_xbrl_section st && any_in xbrl_exit_indicators line_lower
      then false else in_xbrl_section st in
    if in_xbrl then
      {| in_xbrl_section := in_xbrl;
         in_toc_section := in_toc_section st;
         found_narrative_start := found_narrative_start st;
         cleaned_lines := cleaned_lines st |}
    else if negb (found_narrative_start st) && any_in toc_indicators line_lower then
      {| in_xbrl_section := in_xbrl;
         in_toc_section := true;
         found_narrative_start := found_narrative_start st;
         cleaned_lines := cleaned_lines st |}
    else if in_toc_section st then
      if existsb is_digit line && (length (strip line) <? 100) then
        {| in_xbrl_section := in_xbrl;
           in_toc_section := true;
           found_narrative_start := found_narrative_start st;
           cleaned_lines := cleaned_lines st |}
      else if any_in narrative_indicators line_lower
              && (20 <? length (strip line)) then
        {| in_xbrl_section := in_xbrl;
           in_toc_section := false;
           found_narrative_start := true;
           cleaned_lines := cleaned_lines st ++ [line] |}
      else
        {| in_xbrl_section := in_xbrl;
           in_toc_section := true;
           found_narrative_start := found_narrative_start st;
           cleaned_lines := cleaned_lines st |}
    else if found_narrative_start st then
      {| in_xbrl_section := in_xbrl;
         in_toc_section := false;
         found_narrative_start := true;
         cleaned_lines := cleaned_lines st ++ [line] |}
    else if any_in alt_narrative_indicators line_lower
            && (15 <? length (strip line)) then
      {| in_xbrl_section := in_xbrl;
         in_toc_section := false;
         found_narrative_start := true;
         cleaned_lines := cleaned_lines st ++ [line] |}
    else
      {| in_xbrl_section := in_xbrl;
         in_toc_section := false;
         found_narrative_start := false;
         cleaned_lines := cleaned_lines st |}.

Definition pre_scan (lines : list str) : pre_state :=
  fold_left pre_step lines pre_init.

(** The test of the position-based loop on one line. *)
Definition substantial_line (line : str) : bool :=
  (50 <? length (strip line)) && any_in domain_words (lower line).

(** [for i in range(start_pos, min(start_pos + 1000, len(lines)))]: at most
    [budget] lines are looked at; the first substantial one gives
    [lines[i:]]. *)
Fixpoint position_scan (budget : nat) (rest : list str) : option (list str) :=
  match budget, rest with
  | S b, line :: rest' =>
      if substantial_line line then Some rest else position_scan b rest'
  | _, _ => None
  end.

(** [int(len(lines) * 0.2)]: the floor of a fifth of the line count (the
    double nearest to 0.2 is above 1/5 by less than 1e-16, so the floor of
    the product is the integer quotient for every list that fits in
    memory). *)
Definition start_pos_of (lines : list str) : nat := length lines / 5.

Definition position_based (lines cleaned : list str) : list str :=
  match position_scan 1000 (skipn (start_pos_of lines) lines) with
  | Some suffix => suffix
  | None => cleaned
  end.

Definition _preprocess_filing_content (text_content : str) : str :=
  let lines := split_nl text_content in
  let st := pre_scan lines in
  let cleaned :=
    if negb (found_narrative_start st) && (length (cleaned_lines st) <? 1000)
    then position_based lines (cleaned_lines st)
    else cleaned_lines st in
  join_nl cleaned.

(** ** The table filters *)

Definition financial_keywords : list str :=
  map lit [ "million"; "billion"; "thousand"; "$"; "percent"; "%";
            "revenue"; "income"; "loss"; "assets"; "liabilities";
            "ratio"; "premium"; "claim"; "underwriting"; "investment";
            "year ended"; "december"; "quarter"; "fiscal" ]%string.

Definition skip_phrases : list str :=
  map lit [ "annual report pursuant"; "securities exchange act"; "check one";
            "commission file number" ]%string.

(** [sum(1 for keyword in keywords if keyword in text)] *)
Definition keyword_count (keywords : list str) (text : str) : nat :=
  length (filter (fun keyword => contains keyword text) keywords).

Definition _is_meaningful_table (table_text : str) : bool :=
  if negb (truthy table_text) || (length table_text <? 50) then false
  else
    let lines := split_nl table_text in
    let non_empty_lines :=
      filter (fun line => truthy (strip line)
                          && negb (str_eqb (strip line) (lit "|"))) lines in
    if length non_empty_lines <? 3 then false
    else
      let text_lower := lower table_text in
      let count := keyword_count financial_keywords text_lower in
      if any_in skip_phrases text_lower then false
      else 2 <=? count.

Definition section_keywords : dict (list str) :=
  [ (lit "item_1a", map lit [ "risk"; "factor"; "exposure"; "impact" ]%string);
    (lit "item_1", map lit [ "business"; "operation"; "product"; "service";
                             "coverage" ]%string);
    (lit "item_7", map lit [ "year ended"; "december"; "million"; "income";
                             "revenue"; "expense"; "prior accident";
                             "development"; "catastrophe"; "loss"; "ratio";
                             "premium" ]%string);
    (lit "item_5", map lit [ "share"; "stock"; "dividend"; "repurchase";
                             "market" ]%string);
    (lit "item_8", map lit [ "balance sheet"; "statement"; "cash flow";
                             "equity" ]%string) ].

Definition _is_section_relevant_table (table_text section_id : str) : bool :=
  let text_lower := lower table_text in
  if contains (lit "trading symbol") text_lower
     && contains (lit "new york stock exchange") text_lower then false
  else
    let relevant_keywords :=
      match dict_get section_id section_keywords with
      | Some ks => ks
      | None => []
      end in
    match relevant_keywords with
    | [] => true
    | _ :: _ => 2 <=? keyword_count relevant_keywords text_lower
    end.

(** ** The data model *)

Inductive SectionType := TEXT | TABLE | CHART | FINANCIAL_STATEMENT | EXHIBIT.

Record VisualElement := mkVisualElement {
  ve_section_id : str;
  ve_section_title : str;
  ve_element_type : SectionType;
  ve_page_number : option Z;
  ve_description : str;
  ve_context : str;
  ve_image_data : option (list ascii);
  ve_extracted_text : option str
}.

Inductive FilingSection := mkFilingSection {
  section_id : str;
  title : str;
  description : str;
  purpose : str;
  content : str;
  visual_elements : list VisualElement;
  key_contents : list str;
  page_range : option (Z * Z);
  subsections : option (list (str * FilingSection))
}.

(** [SectionFound]: one section claimed by the oracle in a chunk. *)
Record SectionFound := mkSectionFound {
  sf_section_id : str;
  sf_part : str;
  sf_title : str;
  sf_content_start : str;
  sf_content_length : Z;
  sf_contains_key_info : list str
}.

Record ChunkAnalysis := mkChunkAnalysis {
  sections_found : list SectionFound;
  chunk_summary : str
}.

(** A value of the nested dictionaries of a parsed structure, as the
    traversals read it: something that is not a dictionary, or a dictionary
    of which only the keys ["section"] (when it holds a [FilingSection]) and
    ["subsections"] are looked at. *)
Inductive value :=
| VOther
| VDict (section : option FilingSection) (subs : option (list (str * value))).

Definition structure := dict value.

Record ParsedFiling := mkParsedFiling {
  filing_url : str;
  total_length : nat;
  cleaned_length : nat;
  pf_structure : structure;
  parsing_method : str;
  chunks_processed : nat
}.

(** ** The regulatory outline [FORM_10K_STRUCTURE] *)

Record item_info := mkItem {
  item_title : str;
  item_purpose : option str;
  item_parent : option str;
  item_key_metrics : list str
}.

(** A top-level entry: a part with its ["sections"], or the entry
    ["signatures"], which has none. *)
Inductive part_info :=
| Part (part_title : str) (sections : dict item_info)
| Leaf (leaf_title leaf_purpose : str).

Definition item (t p : string) : item_info :=
  mkItem (lit t) (Some (lit p)) None [].

Definition child (t p parent : string) : item_info :=
  mkItem (lit t) (Some (lit p)) (Some (lit parent)) [].

Definition FORM_10K_STRUCTURE : dict part_info :=
  [ (lit "part_1", Part (lit "Part I - Business Information")
      [ (lit "item_1", item "Business" "Company operations and strategy");
        (lit "item_1a", child "Risk Factors" "Material risks" "item_1");
        (lit "item_1b", child "Unresolved Staff Comments" "SEC comments" "item_1");
        (lit "item_1c", child "Cybersecurity" "Cyber risk management" "item_1");
        (lit "item_2", item "Properties" "Physical assets");
        (lit "item_3", item "Legal Proceedings" "Material litigation");
        (lit "item_4", item "Mine Safety Disclosures"
                            "Mining safety (if applicable)") ]);
    (lit "part_2", Part (lit "Part II - Financial Information")
      [ (lit "item_5", item "Market for Common Equity"
                            "Stock and shareholder info");
        (lit "item_6", item "Reserved" "Reserved section");
        (lit "item_7",
          mkItem (lit "Management's Discussion and Analysis")
                 (Some (lit "Financial performance analysis")) None
                 (map lit [ "combined ratio"; "underwriting"; "revenue";
                            "margins" ]%string));
        (lit "item_7a", child "Market Risk Disclosures" "Market risk exposure"
                              "item_7");
        (lit "item_8", item "Financial Statements" "Audited financials");
        (lit "item_9", item "Changes in Accountants" "Auditor changes");
        (lit "item_9a", child "Controls and Procedures" "Internal controls"
                              "item_9");
        (lit "item_9b", child "Other Information" "Additional disclosures"
                              "item_9");
        (lit "item_9c", child "Foreign Jurisdiction Inspections"
                              "Audit inspection issues" "item_9") ]);
    (lit "part_3", Part (lit "Part III - Corporate Governance")
      [ (lit "item_10", item "Directors and Officers" "Leadership information");
        (lit "item_11", item "Executive Compensation" "Pay disclosures");
        (lit "item_12", item "Security Ownership" "Stock ownership");
        (lit "item_13", item "Related Transactions" "Related party deals");
        (lit "item_14", item "Accountant Fees" "Auditor compensation") ]);
    (lit "part_4", Part (lit "Part IV - Exhibits and Signatures")
      [ (lit "item_15", item "Exhibits and Schedules" "Document index");
        (lit "item_16", item "Form 10-K Summary" "Optional summary") ]);
    (lit "signatures", Leaf (lit "Signatures") (lit "Required signatures")) ].

(** The vocabulary of the outline: its part identifiers, its item
    identifiers and ["signatures"]. *)
Definition vocabulary : list str :=
  flat_map (fun entry =>
              fst entry ::
              match snd entry with
              | Part _ sections => map fst sections
              | Leaf _ _ => []
              end) FORM_10K_STRUCTURE.

Definition in_vocabulary (id : str) : bool := existsb (str_eqb id) vocabulary.

(** [for part_info in self.FORM_10K_STRUCTURE.values()]: the purpose of the
    first part that lists the identifier, or the empty string. *)
Fixpoint description_in (parts : dict part_info) (section_id : str) : str :=
  match parts with
  | [] => []
  | (_, Part _ sections) :: rest =>
      match dict_get section_id sections with
      | Some info =>
          match item_purpose info with Some p => p | None => [] end
      | None => description_in rest section_id
      end
  | (_, Leaf _ _) :: rest => description_in rest section_id
  end.

Definition _get_section_description (section_id : str) : str :=
  description_in FORM_10K_STRUCTURE section_id.

Definition _get_section_purpose (section_id : str) : str :=
  _get_section_description section_id.

(** ** The oracle and the document tree *)

(** The structured-inference service behind [self.anthropic_client], as the
    parser uses it: the reply to the [analyze_chunk] request for chunk
    number [i] with the first 8000 characters of the chunk ([None]: the call
    raised, the reply had no [analyze_chunk] tool block, or the block did
    not validate as a [ChunkAnalysis]), and the text reply to the boundary
    request for a section identifier and the first 8000 characters of a
    window ([None]: the call raised or the reply was empty). *)
Record Client := mkClient {
  analyze_chunk : nat -> str -> option ChunkAnalysis;
  boundary_reply : str -> str -> option str
}.

Section Parser.

(** [self.anthropic_client]: [None] when no oracle is configured. *)
Variable anthropic_client : option Client.

(** [re.search(pattern, text, flags).start()]; the flag is [true] for
    [re.IGNORECASE | re.MULTILINE] and [false] for no flags. *)
Variable re_search : bool -> str -> str -> option nat.

(** [BeautifulSoup(filing_content, 'html.parser').get_text(separator='\n',
    strip=True)] *)
Variable soup_get_text : str -> str.

(** [_find_visuals_for_section] on the tree of [filing_content]: the tables
    that follow the header of the section, filtered and described. *)
Variable _find_visuals_for_section : str -> str -> str -> str -> list VisualElement.

Definition _llm_find_section_boundary (client : Client)
  (chunk current_section_id : str) : option str :=
  match boundary_reply client current_section_id (firstn 8000 chunk) with
  | None => None
  | Some text =>
      let boundary_result := strip text in
      if isdigit boundary_result then
        let boundary_pos := int_of_digits boundary_result in
        if ((0 <? boundary_pos) && (boundary_pos <? N.of_nat (length chunk)))%N
        then
          let section_content := strip (firstn (N.to_nat boundary_pos) chunk) in
          if 500 <=? length section_content then Some section_content
          else None
        else None
      else None
  end.

Definition next_section_patterns : list str :=
  map lit
    [ "\n\s*ITEM\s+\d+[A-Z]*\.?\s*[A-Z\s]+\n";
      "\n\s*Item\s+\d+[A-Z]*\.?\s*[A-Z\s]+\n";
      "\n\s*PART\s+(I{1,4}|[1-4])\s*\n";
      "\n\s*Part\s+(I{1,4}|[1-4])\s*\n";
      "\n\s*SIGNATURES\s*\n";
      "<[^>]*>\s*ITEM\s+\d+[A-Z]*";
      "<[^>]*>\s*Item\s+\d+[A-Z]*" ]%string.

Definition _regex_find_section_boundary (chunk section_id : str) : str :=
  let search_text := skipn 500 chunk in
  let min_end_pos :=
    fold_left
      (fun min_end_pos pattern =>
         match re_search true pattern search_text with
         | Some start => Nat.min min_end_pos (500 + start)
         | None => min_end_pos
         end)
      next_section_patterns (length chunk) in
  let section_content := strip (firstn min_end_pos chunk) in
  if 100 <=? length section_content then section_content
  else strip (firstn (Nat.min 5000 (length chunk)) chunk).

Definition section_patterns : dict (list str) :=
  [ (lit "item_1a", map lit [ "item\s+1a"; "risk\s+factors" ]%string);
    (lit "item_7", map lit [ "item\s+7"; "management.*discussion.*analysis";
                             "md&a" ]%string);
    (lit "item_1", map lit [ "item\s+1[^a-z]"; "\bbusiness\b" ]%string);
    (lit "item_8", map lit [ "item\s+8"; "financial\s+statements" ]%string) ].

(** [for pattern in patterns: match = re.search(pattern, text)] up to the
    first match. *)
Fixpoint first_match (patterns : list str) (text : str) : option nat :=
  match patterns with
  | [] => None
  | pattern :: rest =>
      match re_search false pattern text with
      | Some start => Some start
      | None => first_match rest text
      end
  end.

Definition _extract_section_content_from_chunk (chunk : str)
  (section_info : SectionFound) : str :=
  let content_start_hint := sf_content_start section_info in
  let section_id := sf_section_id section_info in
  let by_patterns :=
    match dict_get section_id section_patterns with
    | Some patterns =>
        match first_match patterns (lower chunk) with
        | Some start_pos => strip (slice start_pos (start_pos + 15000) chunk)
        | None => strip (firstn 10000 chunk)
        end
    | None => strip (firstn 10000 chunk)
    end in
  if truthy content_start_hint then
    match find (lower chunk) (firstn 50 (lower content_start_hint)) 0 with
    | Some start_pos =>
        let chunk_from_start := slice start_pos (start_pos + 50000) chunk in
        let by_llm :=
          match anthropic_client with
          | Some client =>
              if 1000 <? length chunk_from_start
              then _llm_find_section_boundary client chunk_from_start section_id
              else None
          | None => None
          end in
        match by_llm with
        | Some ((_ :: _) as section_content) => section_content
        | _ =>
            let section_content :=
              _regex_find_section_boundary chunk_from_start section_id in
            if truthy section_content then section_content else by_patterns
        end
    | None => by_patterns
    end
  else by_patterns.

(** The bullet U+2022 of the visual block, in UTF-8. *)
Definition bullet : str := map ascii_of_nat [226; 128; 162].

Definition visual_summaries (section_visuals : list VisualElement) : str :=
  [nl; nl] ++ lit "[VISUAL CONTENT]" ++ [nl] ++
  join_nl (map (fun visual => bullet ++ lit " " ++ ve_description visual)
               section_visuals).

(** [parsed_sections[part_id]["subsections"][section_id] = {"section": fs}],
    after [parsed_sections[part_id] = {"subsections": {}}] for a new part.
    The mapper starts from the empty dictionary and only ever stores parts
    that have ["subsections"], so the last case, in which the source
    raises, is never reached from it ([mapper_parts_writable]); the
    structure is left as it is there. *)
Definition store_section (parsed_sections : structure)
  (part_id section_id : str) (filing_section : FilingSection) : structure :=
  let entry := VDict (Some filing_section) None in
  match dict_get part_id parsed_sections with
  | None =>
      parsed_sections ++ [(part_id, VDict None (Some [(section_id, entry)]))]
  | Some (VDict sec (Some subsections)) =>
      dict_set part_id
        (VDict sec (Some (dict_set section_id entry subsections)))
        parsed_sections
  | Some _ => parsed_sections
  end.

(** The [FilingSection] the mapper builds for a claim and its content. *)
Definition build_section (section_info : SectionFound) (section_content : str)
  (section_visuals : list VisualElement) : FilingSection :=
  {| section_id := sf_section_id section_info;
     title := sf_title section_info;
     description := _get_section_description (sf_section_id section_info);
     purpose := _get_section_purpose (sf_section_id section_info);
     content := section_content;
     visual_elements := section_visuals;
     key_contents := sf_contains_key_info section_info;
     page_range := None;
     subsections := None |}.

(** The body of [for section_info in chunk_analysis.sections_found]. *)
Definition process_section (filing_content filing_url chunk : str)
  (parsed_sections : structure) (section_info : SectionFound) : structure :=
  let section_id := sf_section_id section_info in
  let part_id := sf_part section_info in
  let section_content := _extract_section_content_from_chunk chunk section_info in
  if truthy section_content then
    let section_visuals :=
      _find_visuals_for_section filing_content filing_url section_id
                                (sf_title section_info) in
    let section_content :=
      match section_visuals with
      | [] => section_content
      | _ :: _ => section_content ++ visual_summaries section_visuals
      end in
    store_section parsed_sections part_id section_id
      (build_section section_info section_content section_visuals)
  else parsed_sections.

(** The state of the loop of the mapper: the structure built so far and,
    as a record of what was sent, the chunk numbers and chunks submitted to
    the oracle. *)
Record map_state := MapState {
  parsed_sections : structure;
  submitted : list (nat * str)
}.

(** The body of [for i, chunk in enumerate(chunks[:6])]. *)
Definition map_chunk (client : Client) (filing_content filing_url : str)
  (st : map_state) (ic : nat * str) : map_state :=
  let '(i, chunk) := ic in
  {| parsed_sections :=
       match analyze_chunk client (i + 1) (firstn 8000 chunk) with
       | Some chunk_analysis =>
           fold_left (process_section filing_content filing_url chunk)
                     (sections_found chunk_analysis) (parsed_sections st)
       | None => parsed_sections st
       end;
     submitted := submitted st ++ [(i + 1, chunk)] |}.

Definition enumerate {A} (l : list A) : list (nat * A) :=
  combine (seq 0 (length l)) l.

Definition llm_map_loop (client : Client) (filing_content filing_url : str)
  (chunks : list str) : map_state :=
  fold_left (map_chunk client filing_content filing_url)
            (enumerate (firstn 6 chunks))
            {| parsed_sections := []; submitted := [] |}.

Definition _llm_parse_structure_pydantic (client : Client)
  (filing_content filing_url : str) (chunks : list str) : structure :=
  parsed_sections (llm_map_loop client filing_content filing_url chunks).

(** The chunks the mapper sent to the oracle, in order. *)
Definition oracle_submissions (client : Client)
  (filing_content filing_url : str) (chunks : list str) : list (nat * str) :=
  submitted (llm_map_loop client filing_content filing_url chunks).

Definition mda_phrase : str := lit "management's discussion and analysis".
Definition mda_end_phrase : str := lit "financial statements".

Definition _fallback_parse_structure (text_content : str) : structure :=
  match find (lower text_content) mda_phrase 0 with
  | Some mda_start =>
      let mda_end :=
        match find (lower text_content) mda_end_phrase mda_start with
        | Some e => e
        | None => mda_start + 50000
        end in
      let mda_content := slice mda_start mda_end text_content in
      let filing_section :=
        {| section_id := lit "item_7";
           title := lit "Management's Discussion and Analysis";
           description := lit "Management's analysis of financial performance";
           purpose := lit "Financial performance analysis";
           content := mda_content;
           visual_elements := [];
           key_contents := [];
           page_range := None;
           subsections := None |} in
      [ (lit "part_2",
         VDict None
               (Some [ (lit "item_7", VDict (Some filing_section) None) ])) ]
  | None => []
  end.

(** The chunks [parse_structured_filing] computes for a document. *)
Definition filing_chunks (filing_content : str) : list str :=
  _split_content_intelligently
    (_preprocess_filing_content (soup_get_text filing_content))
    default_max_chunk_size.

Definition parse_structured_filing (filing_content filing_url : str)
  : ParsedFiling :=
  let text_content := soup_get_text filing_content in
  let cleaned_content := _preprocess_filing_content text_content in
  let chunks :=
    _split_content_intelligently cleaned_content default_max_chunk_size in
  {| filing_url := filing_url;
     total_length := length text_content;
     cleaned_length := length cleaned_content;
     pf_structure :=
       match anthropic_client with
       | Some client =>
           _llm_parse_structure_pydantic client filing_content filing_url chunks
       | None => _fallback_parse_structure cleaned_content
       end;
     parsing_method := lit "llm_driven_pydantic";
     chunks_processed := length chunks |}.

End Parser.

(** ** The keyword search *)

(** [f"{current_path}.{key}" if current_path else key] *)
Definition join_path (current_path key : str) : str :=
  if truthy current_path then current_path ++ lit "." ++ key else key.

(** [for keyword in keywords: if keyword.lower() in content_lower:
    results.append((new_path, section)); break] *)
Fixpoint match_keywords (keywords : list str) (content_lower : str)
  (new_path : str) (section : FilingSection)
  (results : list (str * FilingSection)) : list (str * FilingSection) :=
  match keywords with
  | [] => results
  | keyword :: rest =>
      if contains (lower keyword) content_lower
      then results ++ [(new_path, section)]
      else match_keywords rest content_lower new_path section results
  end.

(** The body of the loop of [search_structure] for one [value], with the
    loop over the items of its ["subsections"] nested in it; [results] is
    the list the source appends to. *)
Fixpoint search_value (keywords : list str) (new_path : str) (v : value)
  (results : list (str * FilingSection)) : list (str * FilingSection) :=
  match v with
  | VOther => results
  | VDict sec subs =>
      let results :=
        match sec with
        | Some section =>
            match_keywords keywords (lower (content section)) new_path
                           section results
        | None => results
        end in
      match subs with
      | Some st =>
          (fix search_items (items : list (str * value))
               (results : list (str * FilingSection)) :=
             match items with
             | [] => results
             | (key, value) :: rest =>
                 search_items rest
                   (search_value keywords (join_path new_path key) value results)
             end) st results
      | None => results
      end
  end.

(** [search_structure(current_path, structure)] *)
Fixpoint search_structure (keywords : list str) (current_path : str)
  (st : structure) (results : list (str * FilingSection))
  : list (str * FilingSection) :=
  match st with
  | [] => results
  | (key, value) :: rest =>
      search_structure keywords current_path rest
        (search_value keywords (join_path current_path key) value results)
  end.

Definition find_content_with_keywords (parsed_filing : ParsedFiling)
  (keywords : list str) : list (str * FilingSection) :=
  search_structure keywords [] (pf_structure parsed_filing) [].

(** The design's reading of the search: every section of the tree with its
    path, Part by Part and Item by Item, ... *)
Fixpoint value_sections (path : str) (v : value) : list (str * FilingSection) :=
  match v with
  | VOther => []
  | VDict sec subs =>
      match sec with Some fs => [(path, fs)] | None => [] end ++
      match subs with
      | Some st =>
          (fix walk (items : list (str * value)) :=
             match items with
             | [] => []
             | (key, value) :: rest =>
                 value_sections (join_path path key) value ++ walk rest
             end) st
      | None => []
      end
  end.

Definition all_sections (path : str) (st : structure)
  : list (str * FilingSection) :=
  flat_map (fun kv => value_sections (join_path path (fst kv)) (snd kv)) st.

(** ... kept when its content contains one of the keywords, case set aside. *)
Definition matches_keywords (keywords : list str) (fs : FilingSection) : bool :=
  existsb (fun keyword => contains (lower keyword) (lower (content fs)))
          keywords.

Definition sections_with_keywords (parsed_filing : ParsedFiling)
  (keywords : list str) : list (str * FilingSection) :=
  filter (fun entry => matches_keywords keywords (snd entry))
         (all_sections [] (pf_structure parsed_filing)).

(** ** Vocabulary of the statements *)

(** [l1] is [l2] with some elements left out, order kept. *)
Inductive subseq {A : Type} : list A -> list A -> Prop :=
| subseq_nil : subseq [] []
| subseq_skip x l1 l2 : subseq l1 l2 -> subseq l1 (x :: l2)
| subseq_keep x l1 l2 : subseq l1 l2 -> subseq (x :: l1) (x :: l2).

(** The part of [l] that starts at its first element satisfying [f]. *)
Fixpoint from_first {A : Type} (f : A -> bool) (l : list A) : list A :=
  match l with
  | [] => []
  | x :: l' => if f x then l else from_first f l'
  end.

(** A line that carries none of the machine-tagging indicators and none of
    the table-of-contents markers of the preprocessor. *)
Definition marker_free_line (line : str) : bool :=
  negb (any_in xbrl_indicators (lower (strip line)))
  && negb (any_in toc_indicators (lower (strip line))).

Definition boilerplate_free (text_content : str) : bool :=
  forallb marker_free_line (split_nl text_content).

(** A line on which the second narrative-start test of the scan fires. *)
Definition narrative_start_line (line : str) : bool :=
  any_in alt_narrative_indicators (lower (strip line))
  && (15 <? length (strip line)).

(** What the splitter has done so far: the number of chunks flushed and
    the length of the buffer. *)
Definition split_progress (st : split_state) (count : nat) (size : Z) : Prop :=
  length (chunks st) = count /\ Z.of_nat (length (current_chunk st)) = size.

(** ** Stand-ins for the environment in closed examples *)

(** [get_text] on a text without markup, already trimmed: the text. *)
Definition plain_text (filing_content : str) : str := filing_content.

(** The examples below never reach a regular expression (their claims have
    no start hint and an identifier without patterns); the engine is then
    any function.  A document without markup has no header element, for
    which [_find_visuals_for_section] returns the empty list. *)
Definition no_match (flags : bool) (pattern text : str) : option nat := None.

Definition no_visuals (filing_content filing_url section_id section_title : str)
  : list VisualElement := [].

Definition item_7_header : str :=
  lit "Item 7. Management's Discussion and Analysis".

(** 500 characters of prose. *)
Definition prose : str := repeat "x"%char 500.

(** The header of Item 7, 500 characters, then ["Item 8."] and a closing
    line. *)
Definition doc_item_7_only : str :=
  item_7_header ++ [nl] ++ prose ++ [nl] ++ lit "Item 8." ++ [nl]
  ++ lit "Closing text".

(** The same after an opening line on which the preprocessor starts the
    narrative. *)
Definition doc_item_1_item_7 : str :=
  lit "Item 1. Business overview of the firm" ++ [nl] ++ doc_item_7_only.

(** A small filing with a financial-statements header. *)
Definition doc_small : str :=
  lit "Item 1. Business overview of the firm" ++ [nl]
  ++ item_7_header ++ [nl] ++ lit "Results were good." ++ [nl]
  ++ lit "Item 8. Financial Statements" ++ [nl] ++ lit "Balance sheet".

(** A property of every [FilingSection] held by a value, at any depth. *)
Fixpoint value_forall (P : FilingSection -> Prop) (v : value) : Prop :=
  match v with
  | VOther => True
  | VDict sec subs =>
      match sec with Some fs => P fs | None => True end /\
      match subs with
      | Some st =>
          (fix all_items (items : list (str * value)) : Prop :=
             match items with
             | [] => True
             | (_, value) :: rest => value_forall P value /\ all_items rest
             end) st
      | None => True
      end
  end.

Definition structure_forall (P : FilingSection -> Prop) (st : structure) : Prop :=
  Forall (fun kv => value_forall P (snd kv)) st.

(** The identifier was claimed by the oracle in one of its replies. *)
Definition claimed_by (client : Client) (id : str) : Prop :=
  exists i prefix analysis info,
    analyze_chunk client i prefix = Some analysis /\
    In info (sections_found analysis) /\
    id = sf_section_id info.

(** A claim of the oracle with no start hint, and the oracle that makes
    this one claim for every chunk. *)
Definition claim (id part : string) : SectionFound :=
  {| sf_section_id := lit id; sf_part := lit part;
     sf_title := lit "A section"; sf_content_start := [];
     sf_content_length := 0%Z; sf_contains_key_info := [] |}.

Definition client_claiming (id part : string) : Client :=
  {| analyze_chunk := fun _ _ =>
       Some {| sections_found := [claim id part]; chunk_summary := [] |};
     boundary_reply := fun _ _ => None |}.

(** The table of the design's scenario, as [_extract_table_text] writes
    it. *)
Definition premium_table : str :=
  lit "Year | Premium | Loss Ratio" ++ [nl]
  ++ lit "2023 | $100M | 62%" ++ [nl]
  ++ lit "2022 | $95M | 64%".

(** A filing of seven chunks: an opening line on which the narrative
    starts, then seven lines of 50000 characters, a line "PART I" before
    each of them but the first. *)
Definition block_50000 : str := repeat "x"%char 50000.

Definition opening_line : str := lit "Item 1. Business overview of the firm".

Definition part_i_line : str := lit "PART I".

Definition lines_with (long : str) : list str :=
  opening_line :: long :: concat (repeat [part_i_line; long] 6).

Definition lines_seven_chunks : list str := lines_with block_50000.

Definition doc_seven_chunks : str := join_nl lines_seven_chunks.

(** The design's search scenario: a section A with "ALPHA" in its content
    and a section B without. *)
Definition plain_section (id text : string) : FilingSection :=
  {| section_id := lit id; title := lit id; description := [];
     purpose := []; content := lit text; visual_elements := [];
     key_contents := []; page_range := None; subsections := None |}.

Definition filing_a_b : ParsedFiling :=
  {| filing_url := []; total_length := 0; cleaned_length := 0;
     pf_structure :=
       [ (lit "part_1",
          VDict None
            (Some [ (lit "item_1",
                     VDict (Some (plain_section "item_1" "contains ALPHA term"))
                           None);
                    (lit "item_2",
                     VDict (Some (plain_section "item_2"
                                    "contains nothing relevant"))
                           None) ])) ];
     parsing_method := lit "llm_driven_pydantic";
     chunks_processed := 1 |}.

(** ** The rest of the query interface *)

(** [s.split(sep)] for a separator of one character. *)
Fixpoint split_char (sep : ascii) (s : str) : list str :=
  match s with
  | [] => [[]]
  | c :: s' =>
      if Ascii.eqb c sep then [] :: split_char sep s'
      else match split_char sep s' with
           | l :: ls => (c :: l) :: ls
           | [] => [[c]]
           end
  end.

Definition dot : ascii := "."%char.

(** [s.replace(old, new)] for a non-empty [old]: the occurrences of [old]
    are taken from the left and do not overlap; [skip] counts the
    characters of a replaced occurrence still to be passed over. *)
Fixpoint replace_from (old new : str) (skip : nat) (s : str) : str :=
  match s with
  | [] => []
  | c :: s' =>
      match skip with
      | S k => replace_from old new k s'
      | O =>
          if prefixb old s
          then new ++ replace_from old new (length old - 1) s'
          else c :: replace_from old new 0 s'
      end
  end.

Definition replace (old new s : str) : str := replace_from old new 0 s.

(** What a lookup gives back: a [FilingSection], some other value of the
    dictionaries, [None], or an exception. *)
Inductive lookup_result :=
| Found (fs : FilingSection)
| FoundValue (v : value)
| NotFound
| Raised.

(** [current] in [_get_section_by_internal_path]: a dictionary of keyed
    values, or a value that has no ["subsections"], of which the lookup can
    only see the key ["section"]. *)
Inductive cursor :=
| AtDict (st : structure)
| AtEntry (section : option FilingSection).

(** [current = current[part]], then [current = current["subsections"]]
    when the value has them.  On a value that is not a dictionary the test
    ["subsections" in current] is taken to raise, as it does on a number,
    on [None] and on a [FilingSection]. *)
Definition step_into (v : value) : option cursor :=
  match v with
  | VDict _ (Some subsections) => Some (AtDict subsections)
  | VDict section None => Some (AtEntry section)
  | VOther => None
  end.

(** The loop [for part in parts] and the extraction after it.  Below an
    entry [{"section": fs}] the only key is ["section"], and its value, a
    [FilingSection], raises on the test for ["subsections"]. *)
Fixpoint walk_path (parts : list str) (current : cursor) : lookup_result :=
  match parts with
  | [] =>
      match current with
      | AtDict st =>
          match dict_get (lit "section") st with
          | Some v => FoundValue v
          | None => NotFound
          end
      | AtEntry (Some fs) => Found fs
      | AtEntry None => NotFound
      end
  | part :: rest =>
      match current with
      | AtDict st =>
          match dict_get part st with
          | Some v =>
              match step_into v with
              | Some next => walk_path rest next
              | None => Raised
              end
          | None => NotFound
          end
      | AtEntry (Some _) =>
          if str_eqb part (lit "section") then Raised else NotFound
      | AtEntry None => NotFound
      end
  end.

Definition _get_section_by_internal_path (parsed_filing : ParsedFiling)
  (internal_path : str) : lookup_result :=
  walk_path (split_char dot internal_path)
            (AtDict (pf_structure parsed_filing)).

(** The substitutions of [_fallback_path_lookup], in the order of the
    source. *)
Definition normalize_path (path : str) : str :=
  let path_lower := lower path in
  let path_lower := replace (lit "part1") (lit "part_1") path_lower in
  let path_lower := replace (lit "parti") (lit "part_1") path_lower in
  let path_lower := replace (lit "part2") (lit "part_2") path_lower in
  let path_lower := replace (lit "partii") (lit "part_2") path_lower in
  let path_lower := replace (lit "item1a") (lit "item_1a") path_lower in
  let path_lower := replace (lit "item7") (lit "item_7") path_lower in
  let path_lower := replace (lit "item1") (lit "item_1") path_lower in
  path_lower.

Definition _fallback_path_lookup (parsed_filing : ParsedFiling) (path : str)
  : lookup_result :=
  _get_section_by_internal_path parsed_filing (normalize_path path).

(** [collect_paths] of [get_section_by_path]: the list [available_paths]
    it appends to; an entry is kept as the internal path with the section
    the other three fields are read from. *)
Fixpoint collect_value (new_path : str) (v : value)
  (available_paths : list (str * FilingSection)) : list (str * FilingSection) :=
  match v with
  | VOther => available_paths
  | VDict sec subs =>
      let available_paths :=
        match sec with
        | Some section => available_paths ++ [(new_path, section)]
        | None => available_paths
        end in
      match subs with
      | Some st =>
          (fix collect_items (items : list (str * value))
               (available_paths : list (str * FilingSection)) :=
             match items with
             | [] => available_paths
             | (key, value) :: rest =>
                 collect_items rest
                   (collect_value (join_path new_path key) value
                                  available_paths)
             end) st available_paths
      | None => available_paths
      end
  end.

Fixpoint collect_paths (current_path : str) (st : structure)
  (available_paths : list (str * FilingSection)) : list (str * FilingSection) :=
  match st with
  | [] => available_paths
  | (key, value) :: rest =>
      collect_paths current_path rest
        (collect_value (join_path current_path key) value available_paths)
  end.

(** The reply of the service to the path-mapping request, for the path
    asked and the first 20 available paths: the text of the reply, or
    [None] when the call raised or the reply was empty. *)
Definition path_oracle := str -> list (str * FilingSection) -> option str.

(** [get_section_by_path]; the argument is the client as this method uses
    it.  An exception in the mapped lookup is caught with those of the
    call, and the fallback runs. *)
Definition get_section_by_path (anthropic_client : option path_oracle)
  (parsed_filing : ParsedFiling) (path : str) : lookup_result :=
  match anthropic_client with
  | None => _fallback_path_lookup parsed_filing path
  | Some reply =>
      match collect_paths [] (pf_structure parsed_filing) [] with
      | [] => NotFound
      | available_paths =>
          match reply path (firstn 20 available_paths) with
          | Some text =>
              let mapped_path := strip text in
              if truthy mapped_path
                 && negb (str_eqb mapped_path (lit "NOT_FOUND"))
              then
                match _get_section_by_internal_path parsed_filing mapped_path with
                | Raised => _fallback_path_lookup parsed_filing path
                | result => result
                end
              else _fallback_path_lookup parsed_filing path
          | None => _fallback_path_lookup parsed_filing path
          end
      end
  end.

(** The contexts the search tool of [anthropic_client.py] builds for one
    found section: for each keyword that occurs, 200 characters before its
    first occurrence and 500 from it. *)
Fixpoint keyword_contexts (keywords : list str) (section_content : str)
  : list (str * str) :=
  match keywords with
  | [] => []
  | keyword :: rest =>
      let content_lower := lower section_content in
      (if contains (lower keyword) content_lower then
         match find content_lower (lower keyword) 0 with
         | Some pos =>
             [(keyword, slice (pos - 200) (pos + 500) section_content)]
         | None => [(keyword, slice 0 499 section_content)]
         end
       else [])
      ++ keyword_contexts rest section_content
  end.

(** An entry of ["found_sections"]. *)
Record found_section := mkFoundSection {
  section_path : str;
  section_title : str;
  content_length : nat;
  contexts : list (str * str)
}.

(** The search tool, from the parsed filing on. *)
Definition search_filing_content (parsed_filing : ParsedFiling)
  (keywords : list str) : list found_section :=
  map (fun found =>
         {| section_path := fst found;
            section_title := title (snd found);
            content_length := length (content (snd found));
            contexts := keyword_contexts keywords (content (snd found)) |})
      (find_content_with_keywords parsed_filing keywords).

(** ** More vocabulary of the statements *)

(** The first narrative-start test of the scan, the one that ends a table
    of contents. *)
Definition toc_exit_line (line : str) : bool :=
  any_in narrative_indicators (lower (strip line))
  && (20 <? length (strip line)).

Definition no_xbrl_indicator (line : str) : bool :=
  negb (any_in xbrl_indicators (lower (strip line))).

Definition is_lower_letter (c : ascii) : bool :=
  ((97 <=? code c) && (code c <=? 122))%N.

(** No occurrence of the separator. *)
Definition free_of (sep : ascii) (s : str) : bool :=
  forallb (fun c => negb (Ascii.eqb c sep)) s.

(** The shape of the structures the parser builds: parts with items, items
    with a section, keys without a dot, no key twice, no part with an
    empty key. *)
Definition item_shaped (kv : str * value) : Prop :=
  free_of dot (fst kv) = true /\ exists fs, snd kv = VDict (Some fs) None.

Definition part_shaped (kv : str * value) : Prop :=
  free_of dot (fst kv) = true /\ fst kv <> [] /\
  exists items,
    snd kv = VDict None (Some items) /\
    Forall item_shaped items /\ NoDup (map fst items).

Definition two_level (st : structure) : Prop :=
  Forall part_shaped st /\ NoDup (map fst st).

(** The part and section identifiers the oracle claims can be used in a
    path. *)
Definition claims_addressable (client : Client) : Prop :=
  forall i prefix analysis info,
    analyze_chunk client i prefix = Some analysis ->
    In info (sections_found analysis) ->
    free_of dot (sf_part info) = true /\ sf_part info <> [] /\
    free_of dot (sf_section_id info) = true.

(** A text of ASCII characters only: on such a text [s.lower()] has the
    characters of [s] at the same offsets. *)
Definition ascii_only (s : str) : bool :=
  forallb (fun c => (code c <? 128)%N) s.

(** The assignment [parsed_sections[part_id]["subsections"][section_id] =
    ...] does not raise: the part is new or has ["subsections"]. *)
Definition part_writable (parsed_sections : structure) (part_id : str) : bool :=
  match dict_get part_id parsed_sections with
  | None => true
  | Some (VDict _ (Some _)) => true
  | Some _ => false
  end.

(** [parsed_sections[part_id]["subsections"][section_id]], when the part
    and the identifier are there. *)
Definition stored_entry (parsed_sections : structure)
  (part_id section_id : str) : option value :=
  match dict_get part_id parsed_sections with
  | Some (VDict _ (Some subsections)) => dict_get section_id subsections
  | _ => None
  end.

(** The old strings of the substitutions of [normalize_path]. *)
Definition alias_keys : list str :=
  map lit [ "part1"; "parti"; "part2"; "partii"; "item1a"; "item7";
            "item1" ]%string.

(** The state of the scan: nothing kept before the narrative starts, and
    from then on the first line kept is a narrative-start line and no line
    kept has a machine-tagging indicator. *)
Definition scan_invariant_holds (st : pre_state) : Prop :=
  Forall (fun line => no_xbrl_indicator line = true) (cleaned_lines st) /\
  if found_narrative_start st
  then exists first rest,
         cleaned_lines st = first :: rest /\
         toc_exit_line first || narrative_start_line first = true
  else cleaned_lines st = [].

(** ** The text of a table *)

(** [sep.join(parts)] *)
Fixpoint join (sep : str) (parts : list str) : str :=
  match parts with
  | [] => []
  | [p] => p
  | p :: rest => p ++ sep ++ join sep rest
  end.

(** [' | '.join([cell.get_text().strip() for cell in cells])] *)
Definition row_text (cells : list str) : str :=
  join (lit " | ") (map strip cells).

(** [_extract_table_text]; a table is given by its rows ([tr]), a row by
    the text [get_text()] of each of its cells ([td], [th]). *)
Definition _extract_table_text (rows : list (list str)) : str :=
  let table_data :=
    filter (fun row_text => truthy (strip row_text)) (map row_text rows) in
  join_nl (firstn 20 table_data).

(** The rows of a table that have content. *)
Definition rows_with_content (rows : list (list str)) : list (list str) :=
  filter (fun cells => truthy (strip (row_text cells))) rows.

Definition one_line (s : str) : bool :=
  forallb (fun c => negb (Ascii.eqb c nl)) s.

(** The item identifiers of the outline. *)
Definition outline_items : list str :=
  flat_map (fun entry =>
              match snd entry with
              | Part _ sections => map fst sections
              | Leaf _ _ => []
              end) FORM_10K_STRUCTURE.

(** * Properties *)

(** ** Facts about the string primitives *)

Lemma split_nl_cons (s : str) : exists l ls, split_nl s = l :: ls.
Proof.
  induction s as [|c s IH]; simpl.
  - eauto.
  - destruct (Ascii.eqb c nl); [eauto|].
    destruct IH as (l & ls & ->). eauto.
Qed.

Lemma lines_with_nl_split (s : str) :
  concat (map (fun l => l ++ [nl]) (split_nl s)) = s ++ [nl].
Proof.
  induction s as [|c s IH]; simpl; [reflexivity|].
  destruct (Ascii.eqb c nl) eqn:E.
  - apply Ascii.eqb_eq in E. subst c. simpl. now rewrite IH.
  - destruct (split_nl_cons s) as (l & ls & Hs). rewrite Hs in *.
    simpl in *. now rewrite IH.
Qed.

Lemma join_nl_cons (l : str) (ls : list str) :
  ls <> [] -> join_nl (l :: ls) = l ++ nl :: join_nl ls.
Proof. destruct ls; [congruence|reflexivity]. Qed.

Lemma join_nl_split (s : str) : join_nl (split_nl s) = s.
Proof.
  induction s as [|c s IH]; simpl; [reflexivity|].
  destruct (split_nl_cons s) as (l & ls & Hs).
  destruct (Ascii.eqb c nl) eqn:E.
  - apply Ascii.eqb_eq in E. subst c.
    rewrite join_nl_cons by (rewrite Hs; discriminate). now rewrite IH.
  - rewrite Hs in *. destruct ls; simpl in *; now rewrite IH.
Qed.

Lemma nonblank_app (a b : str) : nonblank (a ++ b) = nonblank a ++ nonblank b.
Proof. apply filter_app. Qed.

Lemma nonblank_lstrip (s : str) : nonblank (lstrip s) = nonblank s.
Proof.
  induction s as [|c s IH]; simpl; [reflexivity|].
  destruct (is_space c) eqn:E; simpl; [exact IH|]. now rewrite E.
Qed.

Lemma nonblank_rstrip (s : str) : nonblank (rstrip s) = nonblank s.
Proof.
  induction s as [|c s IH]; simpl; [reflexivity|].
  destruct (rstrip s) as [|d r].
  - rewrite <- IH. destruct (is_space c) eqn:E; simpl; now rewrite ?E.
  - rewrite <- IH. reflexivity.
Qed.

Lemma nonblank_strip (s : str) : nonblank (strip s) = nonblank s.
Proof. unfold strip. now rewrite nonblank_lstrip, nonblank_rstrip. Qed.

Lemma nonblank_nil_iff (s : str) : nonblank s = [] <-> all_blank s = true.
Proof.
  induction s as [|c s IH]; simpl; [tauto|].
  destruct (is_space c); simpl; [exact IH|]. split; discriminate.
Qed.

Lemma lstrip_nil_iff (s : str) : lstrip s = [] <-> all_blank s = true.
Proof.
  induction s as [|c s IH]; simpl; [tauto|].
  destruct (is_space c); simpl; [exact IH|]. split; discriminate.
Qed.

Lemma all_blank_rstrip (s : str) : all_blank (rstrip s) = all_blank s.
Proof.
  induction s as [|c s IH]; simpl; [reflexivity|].
  destruct (rstrip s) as [|d r].
  - rewrite <- IH. destruct (is_space c) eqn:E; simpl; now rewrite ?E.
  - rewrite <- IH. reflexivity.
Qed.

Lemma strip_nil_iff (s : str) : strip s = [] <-> all_blank s = true.
Proof.
  unfold strip. rewrite lstrip_nil_iff. now rewrite all_blank_rstrip.
Qed.

Lemma all_blank_app (a b : str) :
  all_blank (a ++ b) = all_blank a && all_blank b.
Proof. apply forallb_app. Qed.

Lemma truthy_false_iff (s : str) : truthy s = false <-> s = [].
Proof. destruct s; simpl; split; congruence. Qed.

(** ** The chunk splitter *)

Lemma split_step_cases (max : Z) (st : split_state) (line : str) :
  (chunks (split_step max st line) = chunks st ++ [strip (current_chunk st)]
   /\ current_chunk (split_step max st line) = line ++ [nl])
  \/ (chunks (split_step max st line) = chunks st
      /\ current_chunk (split_step max st line)
         = current_chunk st ++ line ++ [nl]).
Proof. unfold split_step. destruct (_ && _ && _)%bool; simpl; auto. Qed.

(** The buffer and the chunks always partition what was read: the chunks
    are the trimmed pieces, and the pieces followed by the buffer are the
    lines read so far, each with its line end. *)
Lemma split_loop_pieces (max : Z) (lines : list str) :
  forall (st : split_state) (pieces : list str),
    chunks st = map strip pieces ->
    exists pieces',
      chunks (split_loop max lines st) = map strip pieces' /\
      concat pieces' ++ current_chunk (split_loop max lines st) =
      concat pieces ++ current_chunk st ++
      concat (map (fun l => l ++ [nl]) lines).
Proof.
  unfold split_loop.
  induction lines as [|line lines IH]; intros st pieces Hst; simpl.
  - exists pieces. now rewrite app_nil_r.
  - destruct (split_step_cases max st line) as [[Ec Eb]|[Ec Eb]].
    + destruct (IH (split_step max st line) (pieces ++ [current_chunk st]))
        as (pieces' & H1 & H2).
      { now rewrite Ec, map_app, Hst. }
      exists pieces'. split; [exact H1|].
      rewrite H2, Eb, concat_app. simpl.
      now rewrite app_nil_r, <- !app_assoc.
    + destruct (IH (split_step max st line) pieces) as (pieces' & H1 & H2).
      { now rewrite Ec. }
      exists pieces'. split; [exact H1|].
      rewrite H2, Eb. now rewrite <- !app_assoc.
Qed.

(** The chunks are the trimmed pieces of a partition of the text (with its
    final line end) into consecutive pieces, up to a blank tail. *)
Lemma split_partition (text : str) (max : Z) :
  exists pieces tail,
    concat pieces ++ tail = text ++ [nl] /\
    _split_content_intelligently text max = map strip pieces /\
    all_blank tail = true.
Proof.
  unfold _split_content_intelligently.
  destruct (split_loop_pieces max (split_nl text)
              {| chunks := []; current_chunk := [] |} [] eq_refl)
    as (pieces & H1 & H2).
  simpl in H2. rewrite lines_with_nl_split in H2.
  set (st := split_loop max (split_nl text) _) in *.
  destruct (truthy (strip (current_chunk st))) eqn:E.
  - exists (pieces ++ [current_chunk st]), [].
    rewrite concat_app, map_app, H1. simpl. rewrite !app_nil_r.
    repeat split. exact H2.
  - exists pieces, (current_chunk st). repeat split; try assumption.
    apply strip_nil_iff. now apply truthy_false_iff.
Qed.

Lemma nonblank_concat_strip (pieces : list str) :
  nonblank (concat (map strip pieces)) = nonblank (concat pieces).
Proof.
  induction pieces as [|p ps IH]; simpl; [reflexivity|].
  now rewrite !nonblank_app, nonblank_strip, IH.
Qed.

Lemma is_section_break_blank (line : str) :
  all_blank line = true -> is_section_break line = false.
Proof.
  intros H. apply strip_nil_iff in H. unfold is_section_break.
  now rewrite H.
Qed.

Lemma all_blank_lines (s : str) :
  all_blank s = true -> Forall (fun l => all_blank l = true) (split_nl s).
Proof.
  induction s as [|c s IH]; simpl; intros H.
  - constructor; [reflexivity|constructor].
  - apply andb_true_iff in H. destruct H as [Hc Hs]. specialize (IH Hs).
    destruct (Ascii.eqb c nl).
    + constructor; [reflexivity|exact IH].
    + destruct (split_nl_cons s) as (l & ls & E). rewrite E in *.
      inversion IH; subst. constructor; [|assumption].
      simpl. now rewrite Hc.
Qed.

Lemma split_loop_blank (max : Z) (lines : list str) :
  Forall (fun l => all_blank l = true) lines ->
  forall st,
    chunks st = [] -> all_blank (current_chunk st) = true ->
    chunks (split_loop max lines st) = [] /\
    all_blank (current_chunk (split_loop max lines st)) = true.
Proof.
  unfold split_loop.
  induction 1 as [|line lines Hl _ IH]; intros st Hc Hb; simpl; [tauto|].
  apply IH; unfold split_step; rewrite (is_section_break_blank _ Hl);
    rewrite andb_false_r; simpl; [exact Hc|].
  rewrite !all_blank_app, Hb, Hl. reflexivity.
Qed.

(** C4.  Whatever the text and the maximum chunk size, the chunks read one
    after the other are the text up to blanks: their non-blank characters
    are those of the text, in the same order and as many times; and the
    chunks are the trimmed pieces of a cut of the text into consecutive
    pieces, in document order. *)
Theorem chunk_reconstruction (text_content : str) (max_chunk_size : Z) :
  nonblank (concat (_split_content_intelligently text_content max_chunk_size))
  = nonblank text_content
  /\ exists pieces tail,
       concat pieces ++ tail = text_content ++ [nl] /\
       all_blank tail = true /\
       _split_content_intelligently text_content max_chunk_size
       = map strip pieces.
Proof.
  destruct (split_partition text_content max_chunk_size)
    as (pieces & tail & H1 & H2 & H3).
  split.
  - rewrite H2, nonblank_concat_strip.
    assert (E : nonblank (concat pieces ++ tail) = nonblank (text_content ++ [nl]))
      by now rewrite H1.
    rewrite !nonblank_app in E. apply nonblank_nil_iff in H3.
    rewrite H3 in E. simpl in E. now rewrite !app_nil_r in E.
  - exists pieces, tail. auto.
Qed.

(** C5, the claim as stated fails: a text of one space is not empty and
    gives no chunk. *)
Lemma splitter_blank_input_no_chunk :
  lit " " <> [] /\
  _split_content_intelligently (lit " ") default_max_chunk_size = [].
Proof. split; [discriminate|reflexivity]. Qed.

(** C5, amended.  The splitter is a total function, and it returns no chunk
    exactly when the text has no non-blank character: a text with a
    non-blank character gives at least one chunk, a blank one (the empty
    text among them) gives none. *)
Theorem splitter_no_chunk_iff_blank (text_content : str) (max_chunk_size : Z) :
  _split_content_intelligently text_content max_chunk_size = []
  <-> all_blank text_content = true.
Proof.
  split.
  - intros E.
    destruct (split_partition text_content max_chunk_size)
      as (pieces & tail & H1 & H2 & H3).
    rewrite E in H2. destruct pieces; [|discriminate].
    simpl in H1. subst tail. rewrite all_blank_app in H3.
    now apply andb_true_iff in H3.
  - intros H. unfold _split_content_intelligently.
    destruct (split_loop_blank max_chunk_size _ (all_blank_lines _ H)
                {| chunks := []; current_chunk := [] |} eq_refl eq_refl)
      as [Hc Hb].
    apply strip_nil_iff in Hb. rewrite Hb. exact Hc.
Qed.

(** ** The content preprocessor *)

Lemma subseq_refl {A} (l : list A) : subseq l l.
Proof. induction l; [apply subseq_nil|now apply subseq_keep]. Qed.

Lemma subseq_nil_l {A} (l : list A) : subseq [] l.
Proof. induction l; constructor; assumption. Qed.

Lemma subseq_app {A} (a b c d : list A) :
  subseq a b -> subseq c d -> subseq (a ++ c) (b ++ d).
Proof.
  induction 1; intros Hc; simpl.
  - exact Hc.
  - apply subseq_skip. auto.
  - apply subseq_keep. auto.
Qed.

Lemma subseq_skipn {A} (n : nat) (l : list A) : subseq (skipn n l) l.
Proof.
  revert l. induction n as [|n IH]; intros [|x l]; simpl;
    try apply subseq_refl. constructor. apply IH.
Qed.

Lemma subseq_trans {A} (a b c : list A) :
  subseq a b -> subseq b c -> subseq a c.
Proof.
  intros Hab Hbc. revert a Hab.
  induction Hbc; intros a Hab.
  - exact Hab.
  - constructor. auto.
  - inversion Hab; subst; [apply subseq_skip|apply subseq_keep]; auto.
Qed.

Lemma position_scan_subseq (budget : nat) :
  forall rest suffix,
    position_scan budget rest = Some suffix -> subseq suffix rest.
Proof.
  induction budget as [|b IH]; intros [|line rest] suffix; simpl;
    try discriminate.
  destruct (substantial_line line).
  - intros [= <-]. apply subseq_refl.
  - intros H. constructor. now apply IH.
Qed.

(** A step of the scan leaves the output alone, or appends the line and
    has the narrative-start flag set. *)
Lemma pre_step_cases (st : pre_state) (line : str) :
  (found_narrative_start (pre_step st line) = found_narrative_start st /\
   cleaned_lines (pre_step st line) = cleaned_lines st)
  \/ (found_narrative_start (pre_step st line) = true /\
      cleaned_lines (pre_step st line) = cleaned_lines st ++ [line]).
Proof.
  unfold pre_step. cbv zeta.
  destruct (found_narrative_start st) eqn:F;
    repeat match goal with
           | |- context [if ?b then _ else _] => destruct b
           end; cbn [found_narrative_start cleaned_lines]; auto.
Qed.

Lemma pre_scan_from_subseq (lines : list str) :
  forall st, exists kept,
    cleaned_lines (fold_left pre_step lines st) = cleaned_lines st ++ kept
    /\ subseq kept lines.
Proof.
  induction lines as [|line lines IH]; intros st; simpl.
  - exists []. rewrite app_nil_r. split; [reflexivity|constructor].
  - destruct (IH (pre_step st line)) as (kept & E & S).
    destruct (pre_step_cases st line) as [[_ C]|[_ C]]; rewrite C in E.
    + exists kept. split; [exact E|]. now constructor.
    + exists (line :: kept). rewrite <- app_assoc in E.
      split; [exact E|]. now constructor.
Qed.

(** While the flag is down nothing has been kept. *)
Lemma pre_scan_from_unfound (lines : list str) :
  forall st,
    (found_narrative_start st = false -> cleaned_lines st = []) ->
    found_narrative_start (fold_left pre_step lines st) = false ->
    cleaned_lines (fold_left pre_step lines st) = [].
Proof.
  induction lines as [|line lines IH]; intros st Inv; simpl; [exact Inv|].
  apply IH. intros F.
  destruct (pre_step_cases st line) as [[Ef Ec]|[Ef Ec]].
  - rewrite Ec. apply Inv. congruence.
  - congruence.
Qed.

(** C3, the claim as stated fails: on ["hello world"] no heuristic fires
    (the flag stays down and the position-based search finds no line), and
    the result is the empty text, not the input. *)
Lemma preprocess_worst_case_is_empty :
  found_narrative_start (pre_scan (split_nl (lit "hello world"))) = false /\
  position_scan 1000
    (skipn (start_pos_of (split_nl (lit "hello world")))
           (split_nl (lit "hello world"))) = None /\
  _preprocess_filing_content (lit "hello world") = [] /\
  _preprocess_filing_content (lit "hello world") <> lit "hello world".
Proof. repeat split; try reflexivity. discriminate. Qed.

(** C3, amended.  The preprocessor is a total function of its input.  Its
    output is made of lines of the input, in their order, so it is never
    larger than the input; and when none of its narrative-start heuristics
    fires (the scan ends with the flag down and the position-based search
    finds no substantial line) the output is the empty text. *)
Theorem preprocess_worst_case (text_content : str) :
  (exists kept,
      _preprocess_filing_content text_content = join_nl kept /\
      subseq kept (split_nl text_content))
  /\ (found_narrative_start (pre_scan (split_nl text_content)) = false ->
      position_scan 1000
        (skipn (start_pos_of (split_nl text_content)) (split_nl text_content))
      = None ->
      _preprocess_filing_content text_content = []).
Proof.
  unfold _preprocess_filing_content, pre_scan. split.
  - destruct (pre_scan_from_subseq (split_nl text_content) pre_init)
      as (kept & E & S). simpl in E.
    destruct (_ && _)%bool.
    + unfold position_based.
      destruct (position_scan _ _) as [suffix|] eqn:P.
      * exists suffix. split; [reflexivity|].
        eapply subseq_trans; [eapply position_scan_subseq; eauto|].
        apply subseq_skipn.
      * exists kept. now rewrite E.
    + exists kept. now rewrite E.
  - intros F P.
    rewrite (pre_scan_from_unfound (split_nl text_content) pre_init
               (fun _ => eq_refl) F), F.
    unfold position_based. now rewrite P.
Qed.

Lemma preprocess_worst_case_witness :
  _preprocess_filing_content (lit "no heuristic here") = [].
Proof.
  apply (proj2 (preprocess_worst_case (lit "no heuristic here")));
    reflexivity.
Defined.

(** On a line free of markers, with the two skipping flags down, a step
    keeps them down; it appends the line once the flag is up, and raises
    the flag exactly on a narrative-start line. *)
Lemma pre_step_marker_free (st : pre_state) (line : str) :
  marker_free_line line = true ->
  in_xbrl_section st = false -> in_toc_section st = false ->
  in_xbrl_section (pre_step st line) = false /\
  in_toc_section (pre_step st line) = false /\
  found_narrative_start (pre_step st line)
  = found_narrative_start st || narrative_start_line line /\
  cleaned_lines (pre_step st line)
  = if found_narrative_start st || narrative_start_line line
    then cleaned_lines st ++ [line] else cleaned_lines st.
Proof.
  unfold marker_free_line, narrative_start_line, pre_step. cbv zeta.
  intros M X T. apply andb_true_iff in M. destruct M as [M1 M2].
  apply negb_true_iff in M1, M2. rewrite M1, M2, X, T.
  rewrite andb_false_r. cbn [andb].
  destruct (found_narrative_start st); cbn [negb andb orb].
  - auto.
  - destruct (_ && _)%bool; auto.
Qed.

Lemma pre_scan_marker_free (lines : list str) :
  forallb marker_free_line lines = true ->
  forall st,
    in_xbrl_section st = false -> in_toc_section st = false ->
    let st' := fold_left pre_step lines st in
    if found_narrative_start st
    then found_narrative_start st' = true /\
         cleaned_lines st' = cleaned_lines st ++ lines
    else match from_first narrative_start_line lines with
         | [] => found_narrative_start st' = false /\
                 cleaned_lines st' = cleaned_lines st
         | suffix => found_narrative_start st' = true /\
                     cleaned_lines st' = cleaned_lines st ++ suffix
         end.
Proof.
  induction lines as [|line lines IH]; intros M st X T; simpl.
  - destruct (found_narrative_start st); now rewrite ?app_nil_r.
  - simpl in M. apply andb_true_iff in M. destruct M as [Ml M].
    destruct (pre_step_marker_free st line Ml X T) as (X' & T' & F' & C').
    specialize (IH M (pre_step st line) X' T'). simpl in IH.
    rewrite F', C' in IH.
    destruct (found_narrative_start st); simpl in *.
    + now rewrite <- app_assoc in IH.
    + destruct (narrative_start_line line); simpl in *.
      * now rewrite <- app_assoc in IH.
      * exact IH.
Qed.

(** C6, the claim as stated fails: this text has none of the boilerplate
    markers, and the preprocessor returns the empty text. *)
Lemma preprocess_marker_free_changed :
  boilerplate_free (lit "Revenue grew." ++ [nl] ++ lit "Costs fell.") = true /\
  _preprocess_filing_content (lit "Revenue grew." ++ [nl] ++ lit "Costs fell.")
  = [] /\
  nonblank (_preprocess_filing_content
              (lit "Revenue grew." ++ [nl] ++ lit "Costs fell."))
  <> nonblank (lit "Revenue grew." ++ [nl] ++ lit "Costs fell.").
Proof. repeat split; try reflexivity. discriminate. Qed.

(** C6, amended.  On a text with none of the boilerplate markers the
    preprocessor returns the lines of the text from its first
    narrative-start line on, unchanged, and drops the lines before it; with
    no such line it returns what the position-based search finds, possibly
    nothing.  So the text is returned unchanged when its first line is a
    narrative-start line. *)
Theorem preprocess_marker_free (text_content : str) :
  boilerplate_free text_content = true ->
  _preprocess_filing_content text_content
  = join_nl
      match from_first narrative_start_line (split_nl text_content) with
      | [] => position_based (split_nl text_content) []
      | suffix => suffix
      end
  /\ (narrative_start_line (hd [] (split_nl text_content)) = true ->
      _preprocess_filing_content text_content = text_content).
Proof.
  intros M. unfold boilerplate_free in M.
  assert (E : _preprocess_filing_content text_content
              = join_nl
                  match from_first narrative_start_line (split_nl text_content) with
                  | [] => position_based (split_nl text_content) []
                  | suffix => suffix
                  end).
  { unfold _preprocess_filing_content, pre_scan.
    pose proof (pre_scan_marker_free _ M pre_init eq_refl eq_refl) as H.
    simpl in H.
    destruct (from_first narrative_start_line (split_nl text_content));
      destruct H as [-> ->]; reflexivity. }
  split; [exact E|].
  intros N. rewrite E.
  destruct (split_nl_cons text_content) as (l & ls & S).
  rewrite <- (join_nl_split text_content) at 2.
  rewrite S in *. simpl in N. simpl. now rewrite N.
Qed.

Lemma preprocess_marker_free_witness :
  _preprocess_filing_content
    (lit "Item 1. Business overview" ++ [nl] ++ lit "We sell things.")
  = lit "Item 1. Business overview" ++ [nl] ++ lit "We sell things.".
Proof.
  apply (proj2 (preprocess_marker_free
                  (lit "Item 1. Business overview" ++ [nl]
                   ++ lit "We sell things.") eq_refl)).
  reflexivity.
Defined.

(** ** The fallback parser *)

Lemma prefixb_app (p s : str) : prefixb p s = true -> exists t, s = p ++ t.
Proof.
  revert s. induction p as [|x p IH]; intros s; simpl.
  - eauto.
  - destruct s as [|y s]; [discriminate|].
    intros H. apply andb_true_iff in H. destruct H as [E H].
    apply Ascii.eqb_eq in E. subst y.
    destruct (IH _ H) as (t & ->). eauto.
Qed.

Lemma prefixb_app_refl (p t : str) : prefixb p (p ++ t) = true.
Proof.
  induction p as [|x p IH]; simpl; [reflexivity|].
  now rewrite Ascii.eqb_refl, IH.
Qed.

Lemma find_at_some (sub : str) :
  forall s i j,
    find_at sub s i = Some j ->
    exists k, j = i + k /\ k <= length s /\ prefixb sub (skipn k s) = true.
Proof.
  induction s as [|c s IH]; intros i j; simpl.
  - destruct (prefixb sub []) eqn:E; [|discriminate].
    intros [= <-]. exists 0. rewrite Nat.add_0_r. auto.
  - destruct (prefixb sub (c :: s)) eqn:E.
    + intros [= <-]. exists 0. rewrite Nat.add_0_r. simpl.
      repeat split; [lia|exact E].
    + intros H. destruct (IH _ _ H) as (k & -> & Hk & Hp).
      exists (S k). simpl. repeat split; [lia|lia|exact Hp].
Qed.

(** What [find] returns is a position of the string, not before [start],
    at which [sub] occurs. *)
Lemma find_some (s sub : str) (start j : nat) :
  find s sub start = Some j ->
  start <= j /\ j <= length s /\ prefixb sub (skipn j s) = true.
Proof.
  unfold find. destruct (start <=? length s) eqn:L; [|discriminate].
  apply Nat.leb_le in L. intros H.
  destruct (find_at_some _ _ _ _ H) as (k & -> & Hk & Hp).
  rewrite length_skipn in Hk. rewrite skipn_skipn in Hp.
  rewrite (Nat.add_comm start k). repeat split; [lia|lia|exact Hp].
Qed.

(** No occurrence of "financial statements" starts inside an occurrence of
    "management's discussion and analysis". *)
Lemma mda_end_not_inside (k : nat) (t : str) :
  k < length mda_phrase ->
  prefixb mda_end_phrase (skipn k (mda_phrase ++ t)) = false.
Proof.
  intros H.
  do 36 (destruct k as [|k]; [reflexivity|]).
  exfalso. vm_compute in H. lia.
Qed.

Lemma fifty_thousand_ge : length mda_phrase <= 50000.
Proof. apply Nat.leb_le. vm_compute. reflexivity. Qed.

(** The slice taken by the fallback begins with the phrase it looked
    for. *)
Lemma mda_slice_prefix (text : str) (mda_start : nat) :
  find (lower text) mda_phrase 0 = Some mda_start ->
  prefixb mda_phrase
    (lower (slice mda_start
              match find (lower text) mda_end_phrase mda_start with
              | Some e => e
              | None => mda_start + 50000
              end text)) = true.
Proof.
  intros H. destruct (find_some _ _ _ _ H) as (_ & _ & Hp).
  destruct (prefixb_app _ _ Hp) as (t & Ht).
  assert (Hlen : forall n, length mda_phrase <= n ->
            prefixb mda_phrase (lower (firstn n (skipn mda_start text))) = true).
  { intros n Hn. unfold lower in *. rewrite <- firstn_map, <- skipn_map, Ht.
    rewrite firstn_app, firstn_all2 by exact Hn. apply prefixb_app_refl. }
  unfold slice.
  destruct (find (lower text) mda_end_phrase mda_start) as [e|] eqn:E.
  - destruct (find_some _ _ _ _ E) as (Hge & _ & He).
    apply Hlen.
    destruct (Nat.lt_ge_cases (e - mda_start) (length mda_phrase)) as [Hlt|]; [|assumption].
    replace e with ((e - mda_start) + mda_start) in He by lia.
    rewrite <- skipn_skipn in He. unfold lower in Ht. unfold lower in He.
    rewrite Ht in He.
    now rewrite (mda_end_not_inside _ t Hlt) in He.
  - apply Hlen. rewrite Nat.add_comm, Nat.add_sub. apply fifty_thousand_ge.
Qed.

Section Fallback.

Variable re_search : bool -> str -> str -> option nat.
Variable soup_get_text : str -> str.
Variable _find_visuals_for_section : str -> str -> str -> str -> list VisualElement.

(** C2, amended.  With no oracle configured the parser looks, in the
    lower-cased preprocessed text, for "management's discussion and
    analysis".  When the phrase is there the result has exactly one
    section, "item_7" under "part_2": its content is the preprocessed text
    from the offset of the first occurrence of the phrase to the offset of
    the first following occurrence of "financial statements", or 50000
    characters further when there is none.  When the preprocessed text is
    ASCII, these offsets are those of the text itself: the content is not
    empty and begins with the phrase, case set aside.  When the phrase is
    not there (also because the preprocessor dropped it) the structure is
    empty. *)
Theorem fallback_item_7 (filing_content filing_url : str) :
  let cleaned := _preprocess_filing_content (soup_get_text filing_content) in
  let parsed := parse_structured_filing None re_search soup_get_text
                  _find_visuals_for_section filing_content filing_url in
  (forall mda_start,
      find (lower cleaned) mda_phrase 0 = Some mda_start ->
      exists fs,
        pf_structure parsed
        = [ (lit "part_2",
             VDict None (Some [ (lit "item_7", VDict (Some fs) None) ])) ]
        /\ section_id fs = lit "item_7"
        /\ content fs
           = slice mda_start
               match find (lower cleaned) mda_end_phrase mda_start with
               | Some mda_end => mda_end
               | None => mda_start + 50000
               end cleaned
        /\ (ascii_only cleaned = true ->
            content fs <> []
            /\ prefixb mda_phrase (lower (content fs)) = true))
  /\ (find (lower cleaned) mda_phrase 0 = None -> pf_structure parsed = []).
Proof.
  intros cleaned parsed. subst parsed.
  unfold parse_structured_filing, _fallback_parse_structure.
  cbn [pf_structure]. fold cleaned. split.
  - intros mda_start H. rewrite H.
    eexists. split; [reflexivity|]. cbn [section_id content].
    pose proof (mda_slice_prefix cleaned _ H) as P.
    split; [reflexivity|]. split; [reflexivity|]. intros _.
    split; [|exact P].
    intros E. rewrite E in P. discriminate.
  - intros H. now rewrite H.
Qed.

End Fallback.

(** C2, the claim as stated fails.  In the first document the header of
    Item 7 is followed by 500 characters and "Item 8.", and the parse with
    no oracle has no section at all: the preprocessor kept nothing.  In the
    second the same text follows a line that starts the narrative, and the
    content of "item_7" runs over "Item 8." to the end of the document. *)
Lemma fallback_item_7_missing_or_overrun :
  pf_structure (parse_structured_filing None no_match plain_text no_visuals
                  doc_item_7_only []) = []
  /\ exists fs,
       pf_structure (parse_structured_filing None no_match plain_text
                       no_visuals doc_item_1_item_7 [])
       = [ (lit "part_2",
            VDict None (Some [ (lit "item_7", VDict (Some fs) None) ])) ]
       /\ content fs
          = lit "Management's Discussion and Analysis" ++ [nl] ++ prose ++ [nl]
            ++ lit "Item 8." ++ [nl] ++ lit "Closing text".
Proof.
  split; [vm_compute; reflexivity|].
  eexists. split; vm_compute; reflexivity.
Qed.

Lemma fallback_item_7_witness :
  exists fs,
    pf_structure (parse_structured_filing None no_match plain_text no_visuals
                    doc_small [])
    = [ (lit "part_2",
         VDict None (Some [ (lit "item_7", VDict (Some fs) None) ])) ]
    /\ content fs
       = lit "Management's Discussion and Analysis" ++ [nl]
         ++ lit "Results were good." ++ [nl] ++ lit "Item 8. "
    /\ content fs <> []
    /\ prefixb mda_phrase (lower (content fs)) = true.
Proof.
  destruct (proj1 (fallback_item_7 no_match plain_text no_visuals doc_small [])
              46 eq_refl) as (fs & S & _ & C & A).
  exists fs. split; [exact S|]. split; [rewrite C; reflexivity|].
  apply A. reflexivity.
Defined.

(** ** The keyword search *)

(** Induction on a [value] through the items of its ["subsections"]. *)
Lemma value_nested_ind (P : value -> Prop) :
  P VOther ->
  (forall sec, P (VDict sec None)) ->
  (forall sec st, Forall (fun kv => P (snd kv)) st -> P (VDict sec (Some st))) ->
  forall v, P v.
Proof.
  intros HO HN HS.
  fix IH 1. intros [|sec [st|]]; [exact HO| |apply HN].
  apply HS. induction st as [|[k v] st IHst]; constructor; [apply IH|exact IHst].
Qed.

Lemma match_keywords_spec (keywords : list str) (content_lower new_path : str)
  (section : FilingSection) (results : list (str * FilingSection)) :
  match_keywords keywords content_lower new_path section results
  = results ++
    if existsb (fun keyword => contains (lower keyword) content_lower) keywords
    then [(new_path, section)] else [].
Proof.
  induction keywords as [|keyword rest IH]; simpl.
  - now rewrite app_nil_r.
  - destruct (contains (lower keyword) content_lower); simpl; [reflexivity|exact IH].
Qed.

Lemma value_sections_dict (path : str) (sec : option FilingSection)
  (st : structure) :
  value_sections path (VDict sec (Some st))
  = match sec with Some fs => [(path, fs)] | None => [] end
    ++ all_sections path st.
Proof.
  simpl. f_equal. unfold all_sections.
  induction st as [|[k v] st IH]; simpl; [reflexivity|now rewrite IH].
Qed.

Lemma search_value_dict (keywords : list str) (path : str)
  (sec : option FilingSection) (st : structure)
  (results : list (str * FilingSection)) :
  search_value keywords path (VDict sec (Some st)) results
  = search_structure keywords path st
      match sec with
      | Some section =>
          match_keywords keywords (lower (content section)) path section results
      | None => results
      end.
Proof.
  simpl. generalize (match sec with
                     | Some section =>
                         match_keywords keywords (lower (content section))
                                        path section results
                     | None => results
                     end).
  induction st as [|[k v] st IH]; intros r; simpl; [reflexivity|apply IH].
Qed.

(** The search appends to [results], in the order of the traversal, the
    sections of the value whose content has one of the keywords. *)
Lemma search_value_spec (keywords : list str) (v : value) :
  forall path results,
    search_value keywords path v results
    = results ++ filter (fun entry => matches_keywords keywords (snd entry))
                        (value_sections path v).
Proof.
  induction v as [|sec|sec st IH] using value_nested_ind; intros path results.
  - simpl. now rewrite app_nil_r.
  - simpl. destruct sec as [fs|]; simpl.
    + rewrite match_keywords_spec. unfold matches_keywords.
      now destruct (existsb _ keywords).
    + now rewrite app_nil_r.
  - rewrite search_value_dict, value_sections_dict, filter_app.
    assert (Hst : forall r,
               search_structure keywords path st r
               = r ++ filter (fun entry => matches_keywords keywords (snd entry))
                             (all_sections path st)).
    { unfold all_sections.
      induction IH as [|[k v] st Hv _ IHst]; intros r; simpl.
      - now rewrite app_nil_r.
      - rewrite IHst. simpl in Hv. rewrite Hv, filter_app.
        now rewrite app_assoc. }
    rewrite Hst, app_assoc. f_equal.
    destruct sec as [fs|]; simpl.
    + rewrite match_keywords_spec. unfold matches_keywords.
      now destruct (existsb _ keywords).
    + now rewrite app_nil_r.
Qed.

Lemma search_structure_spec (keywords : list str) (st : structure) :
  forall path results,
    search_structure keywords path st results
    = results ++ filter (fun entry => matches_keywords keywords (snd entry))
                        (all_sections path st).
Proof.
  unfold all_sections.
  induction st as [|[k v] st IH]; intros path results; simpl.
  - now rewrite app_nil_r.
  - rewrite IH, search_value_spec, filter_app. now rewrite app_assoc.
Qed.

Example keyword_search_alpha :
  find_content_with_keywords filing_a_b [lit "alpha"; lit "Alpha"]
  = [ (lit "part_1.item_1", plain_section "item_1" "contains ALPHA term") ].
Proof. reflexivity. Qed.

(** C7.  The search returns the sections of the whole tree, each with its
    path and in the order of the traversal (Part by Part, Item by Item),
    whose content contains one of the keywords with case set aside: every
    such section once, whatever the number of keywords it contains, and no
    other section. *)
Theorem keyword_search_exact (parsed_filing : ParsedFiling)
  (keywords : list str) :
  find_content_with_keywords parsed_filing keywords
  = sections_with_keywords parsed_filing keywords.
Proof.
  unfold find_content_with_keywords, sections_with_keywords.
  now rewrite search_structure_spec.
Qed.

(** ** The table filters *)

(** C8.  The table "Year | Premium | Loss Ratio", "2023 | $100M | 62%",
    "2022 | $95M | 64%" passes the meaningful-table filter (five of the
    financial keywords occur in it), passes the relevance filter of
    "item_7" (three of its keywords occur) and fails the relevance filter
    of "item_1a" (none of its keywords occurs). *)
Theorem premium_table_filters :
  _is_meaningful_table premium_table = true
  /\ filter (fun keyword => contains keyword (lower premium_table))
            financial_keywords
     = map lit [ "$"; "%"; "loss"; "ratio"; "premium" ]%string
  /\ _is_section_relevant_table premium_table (lit "item_7") = true
  /\ _is_section_relevant_table premium_table (lit "item_1a") = false
  /\ keyword_count (map lit [ "risk"; "factor"; "exposure"; "impact" ]%string)
                   (lower premium_table) = 0.
Proof. repeat split; vm_compute; reflexivity. Qed.

(** ** The structure mapper *)

Lemma value_forall_dict (P : FilingSection -> Prop)
  (sec : option FilingSection) (st : structure) :
  value_forall P (VDict sec (Some st))
  <-> match sec with Some fs => P fs | None => True end
      /\ structure_forall P st.
Proof.
  simpl. unfold structure_forall.
  assert (E : (fix all_items (items : list (str * value)) : Prop :=
                 match items with
                 | [] => True
                 | (_, value) :: rest => value_forall P value /\ all_items rest
                 end) st
              <-> Forall (fun kv => value_forall P (snd kv)) st).
  { induction st as [|[k v] st IH]; simpl.
    - split; auto.
    - rewrite IH. split.
      + intros [H1 H2]. now constructor.
      + intros H. inversion H; subst. auto. }
  now rewrite E.
Qed.

(** A property of every stored section holds of every entry the traversal
    finds. *)
Lemma value_forall_sections (P : FilingSection -> Prop) (v : value) :
  value_forall P v ->
  forall path entry, In entry (value_sections path v) -> P (snd entry).
Proof.
  induction v as [|sec|sec st IH] using value_nested_ind; intros H path entry Hin.
  - destruct Hin.
  - simpl in *. destruct sec; simpl in Hin; [|destruct Hin].
    destruct Hin as [<-|[]]. apply H.
  - rewrite value_sections_dict in Hin. apply value_forall_dict in H.
    destruct H as [Hs Hst]. apply in_app_or in Hin. destruct Hin as [Hin|Hin].
    + destruct sec; [|destruct Hin]. destruct Hin as [<-|[]]. exact Hs.
    + unfold all_sections in Hin. apply in_flat_map in Hin.
      destruct Hin as ([k v] & Hkv & Hin).
      unfold structure_forall in Hst. rewrite Forall_forall in IH, Hst.
      exact (IH _ Hkv (Hst _ Hkv) _ _ Hin).
Qed.

Lemma structure_forall_sections (P : FilingSection -> Prop) (st : structure) :
  structure_forall P st ->
  forall path entry, In entry (all_sections path st) -> P (snd entry).
Proof.
  intros H path entry Hin. unfold all_sections in Hin.
  apply in_flat_map in Hin. destruct Hin as ([k v] & Hkv & Hin).
  unfold structure_forall in H. rewrite Forall_forall in H.
  exact (value_forall_sections P v (H _ Hkv) _ _ Hin).
Qed.

Lemma dict_get_Forall {V} (Q : V -> Prop) (k : str) (d : dict V) (v : V) :
  Forall (fun kv => Q (snd kv)) d -> dict_get k d = Some v -> Q v.
Proof.
  induction 1 as [|[k' v'] d Hq _ IH]; simpl; [discriminate|].
  destruct (str_eqb k k'); [intros [= <-]; exact Hq|exact IH].
Qed.

Lemma dict_set_Forall {V} (Q : V -> Prop) (k : str) (v : V) (d : dict V) :
  Forall (fun kv => Q (snd kv)) d -> Q v ->
  Forall (fun kv => Q (snd kv)) (dict_set k v d).
Proof.
  intros H Hv. induction H as [|[k' v'] d Hq Hd IH]; simpl.
  - constructor; [exact Hv|constructor].
  - destruct (str_eqb k k'); constructor; auto.
Qed.

Lemma store_section_forall (P : FilingSection -> Prop) (parsed : structure)
  (part_id id : str) (fs : FilingSection) :
  structure_forall P parsed -> P fs ->
  structure_forall P (store_section parsed part_id id fs).
Proof.
  intros H Hfs. unfold store_section.
  assert (He : value_forall P (VDict (Some fs) None)) by (simpl; auto).
  destruct (dict_get part_id parsed) as [[|sec [subs|]]|] eqn:G; try exact H.
  - pose proof (dict_get_Forall _ _ _ _ H G) as Hv.
    apply value_forall_dict in Hv. destruct Hv as [Hsec Hsubs].
    apply dict_set_Forall; [exact H|].
    apply value_forall_dict. split; [exact Hsec|].
    apply dict_set_Forall; assumption.
  - apply Forall_app. split; [exact H|].
    constructor; [|constructor].
    apply value_forall_dict. split; [exact I|].
    constructor; [exact He|constructor].
Qed.

Section MapperInvariant.

Variable anthropic_client : option Client.
Variable re_search : bool -> str -> str -> option nat.
Variable _find_visuals_for_section : str -> str -> str -> str -> list VisualElement.
Variable client : Client.
Variable P : FilingSection -> Prop.

(** Whatever content and visuals the mapper attaches, the section it
    builds for a claim of the oracle satisfies [P]. *)
Hypothesis built_ok :
  forall i prefix analysis info,
    analyze_chunk client i prefix = Some analysis ->
    In info (sections_found analysis) ->
    forall section_content section_visuals,
      P (build_section info section_content section_visuals).

Lemma process_sections_forall (filing_content filing_url chunk : str)
  (infos : list SectionFound) :
  (forall info, In info infos ->
                forall c v, P (build_section info c v)) ->
  forall parsed,
    structure_forall P parsed ->
    structure_forall P
      (fold_left (process_section anthropic_client re_search
                    _find_visuals_for_section filing_content filing_url chunk)
                 infos parsed).
Proof.
  induction infos as [|info infos IH]; intros Hb parsed H; simpl; [exact H|].
  apply IH; [intros; apply Hb; now right|].
  unfold process_section. destruct (truthy _); [|exact H].
  apply store_section_forall; [exact H|]. apply Hb. now left.
Qed.

Lemma map_chunks_forall (filing_content filing_url : str)
  (ics : list (nat * str)) :
  forall st,
    structure_forall P (parsed_sections st) ->
    structure_forall P
      (parsed_sections
         (fold_left (map_chunk anthropic_client re_search
                       _find_visuals_for_section client filing_content
                       filing_url) ics st)).
Proof.
  induction ics as [|[i chunk] ics IH]; intros st H; cbn [fold_left];
    [exact H|].
  apply IH. unfold map_chunk. cbn [parsed_sections].
  destruct (analyze_chunk client (i + 1) (firstn 8000 chunk)) eqn:A; [|exact H].
  apply process_sections_forall; [|exact H].
  intros info Hin. exact (built_ok _ _ _ _ A Hin).
Qed.

Lemma llm_parse_forall (filing_content filing_url : str) (chunks : list str) :
  structure_forall P
    (_llm_parse_structure_pydantic anthropic_client re_search
       _find_visuals_for_section client filing_content filing_url chunks).
Proof.
  unfold _llm_parse_structure_pydantic, llm_map_loop.
  apply map_chunks_forall. constructor.
Qed.

End MapperInvariant.

Lemma fallback_forall (text_content : str) :
  structure_forall (fun fs => section_id fs = lit "item_7")
                   (_fallback_parse_structure text_content).
Proof.
  unfold _fallback_parse_structure.
  destruct (find (lower text_content) mda_phrase 0); constructor;
    [|constructor].
  apply value_forall_dict. split; [exact I|].
  constructor; [|constructor].
  cbn [snd value_forall section_id]. split; [reflexivity|exact I].
Qed.

(** C1, the claim as stated fails: an oracle that claims a section
    "item_99" of "part_2" has it stored under that identifier, which is
    not in the vocabulary. *)
Lemma oracle_id_outside_vocabulary :
  map (fun entry => (fst entry, section_id (snd entry),
                     in_vocabulary (section_id (snd entry))))
      (all_sections []
         (pf_structure
            (parse_structured_filing
               (Some (client_claiming "item_99" "part_2"))
               no_match plain_text no_visuals doc_small [])))
  = [ (lit "part_2.item_99", lit "item_99", false) ].
Proof. vm_compute. reflexivity. Qed.

(** C1, amended.  Every section stored anywhere in the structure of a
    produced [ParsedFiling] has, with no oracle configured, the identifier
    "item_7", which is in the vocabulary of the outline; and with the
    oracle, an identifier that the oracle claimed in one of its replies,
    stored as it came: it is in the vocabulary whenever every identifier
    the oracle claims is. *)
Theorem section_id_provenance (anthropic_client : option Client)
  (re_search : bool -> str -> str -> option nat) (soup_get_text : str -> str)
  (_find_visuals_for_section : str -> str -> str -> str -> list VisualElement)
  (filing_content filing_url path : str) (fs : FilingSection) :
  In (path, fs)
     (all_sections []
        (pf_structure
           (parse_structured_filing anthropic_client re_search soup_get_text
              _find_visuals_for_section filing_content filing_url))) ->
  match anthropic_client with
  | None =>
      section_id fs = lit "item_7" /\ in_vocabulary (section_id fs) = true
  | Some client =>
      claimed_by client (section_id fs) /\
      ((forall id, claimed_by client id -> in_vocabulary id = true) ->
       in_vocabulary (section_id fs) = true)
  end.
Proof.
  unfold parse_structured_filing. cbn [pf_structure].
  destruct anthropic_client as [client|]; intros Hin.
  - assert (C : claimed_by client (section_id fs)).
    { refine (structure_forall_sections
                (fun fs => claimed_by client (section_id fs)) _ _ _ _ Hin).
      apply llm_parse_forall.
      intros i prefix analysis info A Hi c v.
      exists i, prefix, analysis, info. auto. }
    split; [exact C|]. intros V. now apply V.
  - assert (E : section_id fs = lit "item_7").
    { exact (structure_forall_sections _ _ (fallback_forall _) _ _ Hin). }
    split; [exact E|]. rewrite E. reflexivity.
Qed.

Lemma section_id_provenance_witness :
  exists path fs,
    In (path, fs)
       (all_sections []
          (pf_structure
             (parse_structured_filing
                (Some (client_claiming "item_2" "part_1"))
                no_match plain_text no_visuals doc_small [])))
    /\ claimed_by (client_claiming "item_2" "part_1") (section_id fs).
Proof.
  assert (H : exists entry,
             In entry
                (all_sections []
                   (pf_structure
                      (parse_structured_filing
                         (Some (client_claiming "item_2" "part_1"))
                         no_match plain_text no_visuals doc_small []))))
    by (vm_compute; eexists; left; reflexivity).
  destruct H as [[path fs] H]. exists path, fs. split; [exact H|].
  exact (proj1 (section_id_provenance
                  (Some (client_claiming "item_2" "part_1"))
                  no_match plain_text no_visuals doc_small [] path fs H)).
Defined.

(** C10.  [_get_section_purpose] returns what [_get_section_description]
    returns, for every identifier; so every section the oracle-driven
    mapper stores has its description equal to its purpose. *)
Theorem purpose_equals_description :
  (forall section_id : str,
      _get_section_purpose section_id = _get_section_description section_id)
  /\ (forall (anthropic_client : option Client)
             (re_search : bool -> str -> str -> option nat)
             (_find_visuals_for_section :
                str -> str -> str -> str -> list VisualElement)
             (client : Client) (filing_content filing_url : str)
             (chunks : list str) (path : str) (fs : FilingSection),
         In (path, fs)
            (all_sections []
               (_llm_parse_structure_pydantic anthropic_client re_search
                  _find_visuals_for_section client filing_content filing_url
                  chunks)) ->
         description fs = purpose fs).
Proof.
  split; [reflexivity|].
  intros anthropic_client re_search fv client filing_content filing_url
         chunks path fs Hin.
  refine (structure_forall_sections
            (fun fs => description fs = purpose fs) _ _ _ _ Hin).
  apply llm_parse_forall. intros. reflexivity.
Qed.

Lemma purpose_equals_description_witness :
  exists path fs,
    In (path, fs)
       (all_sections []
          (_llm_parse_structure_pydantic
             (Some (client_claiming "item_2" "part_1")) no_match no_visuals
             (client_claiming "item_2" "part_1") doc_small []
             [lit "Item 2. Properties"]))
    /\ description fs = lit "Physical assets"
    /\ description fs = purpose fs.
Proof.
  assert (H : exists entry,
             In entry
                (all_sections []
                   (_llm_parse_structure_pydantic
                      (Some (client_claiming "item_2" "part_1")) no_match
                      no_visuals (client_claiming "item_2" "part_1")
                      doc_small [] [lit "Item 2. Properties"]))
             /\ description (snd entry) = lit "Physical assets")
    by (vm_compute; eexists; split; [left; reflexivity|reflexivity]).
  destruct H as [[path fs] [H D]]. exists path, fs.
  split; [exact H|]. split; [exact D|].
  exact (proj2 purpose_equals_description _ _ _ _ _ _ _ _ _ H).
Defined.

(** ** The cap on the chunks sent to the oracle *)

Lemma map_chunks_submitted (anthropic_client : option Client)
  (re_search : bool -> str -> str -> option nat)
  (fv : str -> str -> str -> str -> list VisualElement)
  (client : Client) (filing_content filing_url : str)
  (ics : list (nat * str)) :
  forall st,
    submitted (fold_left (map_chunk anthropic_client re_search fv client
                            filing_content filing_url) ics st)
    = submitted st ++ map (fun ic => (fst ic + 1, snd ic)) ics.
Proof.
  induction ics as [|[i chunk] ics IH]; intros st; cbn [fold_left map].
  - now rewrite app_nil_r.
  - rewrite IH. unfold map_chunk. cbn [submitted fst snd].
    now rewrite <- app_assoc.
Qed.

Lemma length_enumerate {A} (l : list A) : length (enumerate l) = length l.
Proof.
  unfold enumerate. rewrite length_combine, length_seq. apply Nat.min_id.
Qed.

(** The mapper sends the first six chunks, numbered from 1, and no
    other. *)
Lemma mapper_submits_first_six (anthropic_client : option Client)
  (re_search : bool -> str -> str -> option nat)
  (fv : str -> str -> str -> str -> list VisualElement)
  (client : Client) (filing_content filing_url : str) (chunks : list str) :
  oracle_submissions anthropic_client re_search fv client filing_content
    filing_url chunks
  = map (fun ic => (fst ic + 1, snd ic)) (enumerate (firstn 6 chunks))
  /\ length (oracle_submissions anthropic_client re_search fv client
               filing_content filing_url chunks)
     = Nat.min 6 (length chunks).
Proof.
  assert (E : oracle_submissions anthropic_client re_search fv client
                filing_content filing_url chunks
              = map (fun ic => (fst ic + 1, snd ic))
                    (enumerate (firstn 6 chunks))).
  { unfold oracle_submissions, llm_map_loop.
    now rewrite map_chunks_submitted. }
  split; [exact E|].
  now rewrite E, length_map, length_enumerate, length_firstn.
Qed.

(** [chunks_processed] is the number of chunks the splitter returned, with
    or without an oracle. *)
Lemma chunks_processed_is_chunk_count (anthropic_client : option Client)
  (re_search : bool -> str -> str -> option nat) (soup_get_text : str -> str)
  (fv : str -> str -> str -> str -> list VisualElement)
  (filing_content filing_url : str) :
  chunks_processed
    (parse_structured_filing anthropic_client re_search soup_get_text fv
       filing_content filing_url)
  = length (filing_chunks soup_get_text filing_content).
Proof. reflexivity. Qed.

(** *** A filing of seven chunks, by reasoning on its lines *)

Lemma lstrip_repeat (c : ascii) (n : nat) :
  is_space c = false -> lstrip (repeat c n) = repeat c n.
Proof. intros H. destruct n as [|n]; simpl; [reflexivity|now rewrite H]. Qed.

Lemma rstrip_repeat (c : ascii) (n : nat) :
  is_space c = false -> rstrip (repeat c n) = repeat c n.
Proof.
  intros H. induction n as [|n IH]; simpl; [reflexivity|].
  rewrite IH. destruct n; simpl; [now rewrite H|reflexivity].
Qed.

Lemma strip_repeat (c : ascii) (n : nat) :
  is_space c = false -> strip (repeat c n) = repeat c n.
Proof.
  intros H. unfold strip. now rewrite rstrip_repeat, lstrip_repeat.
Qed.

Lemma all_blank_repeat (c : ascii) (n : nat) :
  is_space c = false -> 0 < n -> all_blank (repeat c n) = false.
Proof. intros H Hn. destruct n; [lia|]. simpl. now rewrite H. Qed.

Lemma prefixb_repeat (c : ascii) (m : str) :
  forall n, prefixb m (repeat c n) = true -> forallb (Ascii.eqb c) m = true.
Proof.
  induction m as [|x m IH]; intros n; simpl; [reflexivity|].
  destruct n as [|n]; simpl; [discriminate|].
  rewrite (Ascii.eqb_sym x c). intros H. apply andb_true_iff in H.
  destruct H as [-> H]. simpl. exact (IH _ H).
Qed.

(** A marker with a character other than [c] does not occur in a run of
    [c]. *)
Lemma contains_repeat (c : ascii) (m : str) (n : nat) :
  forallb (Ascii.eqb c) m = false -> contains m (repeat c n) = false.
Proof.
  intros H. unfold contains.
  assert (E : forall i, find_at m (repeat c n) i = None).
  { induction n as [|n IH]; intros i; simpl.
    - destruct (prefixb m []) eqn:P; [|reflexivity].
      apply (prefixb_repeat c m 0) in P. congruence.
    - destruct (prefixb m (c :: repeat c n)) eqn:P; [|apply IH].
      apply (prefixb_repeat c m (S n)) in P. congruence. }
  now rewrite E.
Qed.

Lemma any_in_repeat (c : ascii) (markers : list str) (n : nat) :
  forallb (fun m => negb (forallb (Ascii.eqb c) m)) markers = true ->
  any_in markers (repeat c n) = false.
Proof.
  unfold any_in. induction markers as [|m ms IH]; simpl; [reflexivity|].
  intros H. apply andb_true_iff in H. destruct H as [Hm Hms].
  apply negb_true_iff in Hm. now rewrite contains_repeat, IH.
Qed.

Lemma split_nl_line (a b : str) :
  forallb (fun c => negb (Ascii.eqb c nl)) a = true ->
  split_nl (a ++ nl :: b) = a :: split_nl b.
Proof.
  induction a as [|c a IH]; simpl; intros H; [reflexivity|].
  apply andb_true_iff in H. destruct H as [Hc Ha].
  apply negb_true_iff in Hc. now rewrite Hc, IH.
Qed.

Lemma split_nl_one_line (a : str) :
  forallb (fun c => negb (Ascii.eqb c nl)) a = true -> split_nl a = [a].
Proof.
  induction a as [|c a IH]; simpl; intros H; [reflexivity|].
  apply andb_true_iff in H. destruct H as [Hc Ha].
  apply negb_true_iff in Hc. now rewrite Hc, IH.
Qed.

Lemma split_nl_join_nl (lines : list str) :
  lines <> [] ->
  Forall (fun l => forallb (fun c => negb (Ascii.eqb c nl)) l = true) lines ->
  split_nl (join_nl lines) = lines.
Proof.
  intros Hne H. induction H as [|l ls Hl Hls IH]; [now destruct Hne|].
  destruct ls as [|l' ls].
  - simpl. now apply split_nl_one_line.
  - rewrite join_nl_cons by discriminate.
    rewrite split_nl_line by exact Hl. now rewrite IH by discriminate.
Qed.

(** Once the narrative has started, a line without machine-tagging
    indicator is kept. *)
Lemma pre_scan_started (lines : list str) :
  Forall (fun l => any_in xbrl_indicators (lower (strip l)) = false) lines ->
  forall st,
    in_xbrl_section st = false -> in_toc_section st = false ->
    found_narrative_start st = true ->
    found_narrative_start (fold_left pre_step lines st) = true /\
    cleaned_lines (fold_left pre_step lines st) = cleaned_lines st ++ lines.
Proof.
  induction 1 as [|line lines Hl _ IH]; intros st X T F; cbn [fold_left].
  - now rewrite app_nil_r.
  - assert (E : pre_step st line
                = {| in_xbrl_section := false; in_toc_section := false;
                     found_narrative_start := true;
                     cleaned_lines := cleaned_lines st ++ [line] |}).
    { unfold pre_step. cbv zeta. now rewrite Hl, X, T, F. }
    rewrite E.
    destruct (IH {| in_xbrl_section := false; in_toc_section := false;
                    found_narrative_start := true;
                    cleaned_lines := cleaned_lines st ++ [line] |}
                 eq_refl eq_refl eq_refl) as [F' C'].
    split; [exact F'|]. rewrite C'. cbn [cleaned_lines].
    now rewrite <- app_assoc.
Qed.

(** A text whose first line starts the narrative, and no line of which has
    a machine-tagging indicator, is returned as it is. *)
Lemma preprocess_keeps_all (text_content first : str) (rest : list str) :
  split_nl text_content = first :: rest ->
  marker_free_line first = true ->
  narrative_start_line first = true ->
  Forall (fun l => any_in xbrl_indicators (lower (strip l)) = false) rest ->
  _preprocess_filing_content text_content = text_content.
Proof.
  intros S M N R. unfold _preprocess_filing_content, pre_scan.
  rewrite S. cbn [fold_left].
  destruct (pre_step_marker_free pre_init first M eq_refl eq_refl)
    as (X & T & F & C).
  rewrite N in F, C. cbn [pre_init found_narrative_start cleaned_lines orb app]
    in F, C.
  destruct (pre_scan_started rest R (pre_step pre_init first) X T F)
    as [F' C'].
  rewrite F', C', C. cbn [negb andb app].
  rewrite <- S. apply join_nl_split.
Qed.

Lemma split_step_append (max : Z) (st : split_state) (line : str)
  (count : nat) (size : Z) :
  is_section_break line = false ->
  split_progress st count size ->
  split_progress (split_step max st line) count
                 (size + Z.of_nat (length line) + 1)
  /\ (all_blank line = false ->
      all_blank (current_chunk (split_step max st line)) = false).
Proof.
  intros B [Hc Hs]. unfold split_progress, split_step.
  rewrite B, andb_false_r. cbn [andb chunks current_chunk]. split.
  - split; [exact Hc|]. rewrite !length_app. cbn [length]. lia.
  - intros Hl. rewrite !all_blank_app, Hl. now rewrite andb_false_r.
Qed.

Lemma split_step_flush (max : Z) (st : split_state) (line : str)
  (count : nat) (size : Z) :
  is_section_break line = true ->
  split_progress st count size ->
  (0 < size)%Z -> (size + Z.of_nat (length line) > max)%Z ->
  split_progress (split_step max st line) (S count)
                 (Z.of_nat (length line) + 1).
Proof.
  intros B [Hc Hs] Hpos Hmax. unfold split_progress, split_step.
  rewrite B, Hs.
  assert (T : truthy (current_chunk st) = true).
  { destruct (current_chunk st); [simpl in Hs; lia|reflexivity]. }
  rewrite T. replace (size + Z.of_nat (length line) >? max)%Z with true
    by (symmetry; apply Z.gtb_lt; lia).
  cbn [andb chunks current_chunk]. split.
  - rewrite length_app, Hc. cbn [length]. lia.
  - rewrite length_app. cbn [length]. lia.
Qed.

(** A run of pairs of lines, a section break then a long line that is not
    one: every pair flushes the buffer once. *)
Lemma split_loop_pairs (max : Z) (break long : str) :
  is_section_break break = true ->
  is_section_break long = false ->
  all_blank long = false ->
  (2 * Z.of_nat (length break) + Z.of_nat (length long) + 2 > max)%Z ->
  forall pairs st count size,
    split_progress st count size ->
    all_blank (current_chunk st) = false ->
    (0 < size)%Z -> (size + Z.of_nat (length break) > max)%Z ->
    exists size',
      split_progress (split_loop max (concat (repeat [break; long] pairs)) st)
                     (count + pairs) size'
      /\ all_blank
           (current_chunk
              (split_loop max (concat (repeat [break; long] pairs)) st))
         = false.
Proof.
  intros Hb Hl Hn Hbig. unfold split_loop.
  induction pairs as [|pairs IH]; intros st count size P N Hpos Hmax.
  - exists size. rewrite Nat.add_0_r. auto.
  - cbn [repeat concat app fold_left].
    pose proof (split_step_flush max st break _ _ Hb P Hpos Hmax) as P1.
    destruct (split_step_append max (split_step max st break) long _ _ Hl P1)
      as [P2 N2].
    destruct (IH _ _ _ P2 (N2 Hn)) as (size' & P3 & N3); [lia|lia|].
    exists size'. split; [|exact N3].
    replace (count + S pairs) with (S count + pairs) by lia. exact P3.
Qed.

Lemma block_50000_facts :
  Z.of_nat (length block_50000) = 50000%Z
  /\ all_blank block_50000 = false
  /\ is_section_break block_50000 = false
  /\ any_in xbrl_indicators (lower (strip block_50000)) = false
  /\ forallb (fun c => negb (Ascii.eqb c nl)) block_50000 = true.
Proof.
  unfold block_50000. split; [|split; [|split; [|split]]].
  - rewrite repeat_length. vm_compute. reflexivity.
  - apply all_blank_repeat; [reflexivity|].
    apply Nat.ltb_lt. vm_compute. reflexivity.
  - unfold is_section_break. rewrite strip_repeat by reflexivity.
    unfold upper. rewrite map_repeat. now apply any_in_repeat.
  - rewrite strip_repeat by reflexivity. unfold lower. rewrite map_repeat.
    now apply any_in_repeat.
  - apply forallb_forall. intros c Hc. apply repeat_spec in Hc. now subst c.
Qed.

Lemma split_loop_cons (max : Z) (line : str) (lines : list str)
  (st : split_state) :
  split_loop max (line :: lines) st
  = split_loop max lines (split_step max st line).
Proof. reflexivity. Qed.

Section SevenChunks.

(** A long line: 50000 characters, not blank, no section marker, no
    machine-tagging indicator. *)
Variable long : str.
Hypothesis long_length : Z.of_nat (length long) = 50000%Z.
Hypothesis long_not_blank : all_blank long = false.
Hypothesis long_no_break : is_section_break long = false.
Hypothesis long_no_xbrl : any_in xbrl_indicators (lower (strip long)) = false.
Hypothesis long_one_line : forallb (fun c => negb (Ascii.eqb c nl)) long = true.

Lemma seven_lines : split_nl (join_nl (lines_with long)) = lines_with long.
Proof.
  apply split_nl_join_nl; [discriminate|].
  unfold lines_with. cbn [repeat concat app].
  repeat (apply Forall_cons; [first [exact long_one_line | reflexivity]|]).
  apply Forall_nil.
Qed.

(** The preprocessor keeps the whole text: its first line starts the
    narrative. *)
Lemma seven_lines_kept :
  _preprocess_filing_content (join_nl (lines_with long))
  = join_nl (lines_with long).
Proof.
  apply (preprocess_keeps_all (join_nl (lines_with long)) _ _ seven_lines);
    [reflexivity|reflexivity|].
  cbn [repeat concat app].
  repeat (apply Forall_cons; [first [exact long_no_xbrl | reflexivity]|]).
  apply Forall_nil.
Qed.

(** The splitter flushes at each of the six "PART I" lines, and the last
    buffer is the seventh chunk. *)
Lemma seven_chunks_of_lines :
  length (_split_content_intelligently (join_nl (lines_with long))
            default_max_chunk_size) = 7.
Proof.
  unfold _split_content_intelligently. rewrite seven_lines.
  unfold lines_with. rewrite !split_loop_cons.
  set (st0 := {| chunks := []; current_chunk := [] |}).
  assert (P0 : split_progress st0 0 0) by (split; reflexivity).
  destruct (split_step_append default_max_chunk_size st0 opening_line _ _
              eq_refl P0) as [P1 _].
  destruct (split_step_append default_max_chunk_size _ long _ _
              long_no_break P1) as [P2 N2].
  rewrite long_length in P2.
  assert (Hbig : (2 * Z.of_nat (length part_i_line)
                  + Z.of_nat (length long) + 2
                  > default_max_chunk_size)%Z)
    by (rewrite long_length; vm_compute; reflexivity).
  assert (Hmax : (0 + Z.of_nat (length opening_line) + 1 + 50000 + 1
                  + Z.of_nat (length part_i_line)
                  > default_max_chunk_size)%Z)
    by (vm_compute; reflexivity).
  destruct (split_loop_pairs default_max_chunk_size part_i_line long
              eq_refl long_no_break long_not_blank Hbig 6 _ _ _ P2
              (N2 long_not_blank) ltac:(lia) Hmax)
    as (size' & [Pc _] & N).
  destruct (strip (current_chunk _)) eqn:E.
  - apply strip_nil_iff in E. congruence.
  - cbn [truthy]. rewrite length_app, Pc. reflexivity.
Qed.

End SevenChunks.

Lemma seven_chunks : length (filing_chunks plain_text doc_seven_chunks) = 7.
Proof.
  destruct block_50000_facts as (Hlen & Hblank & Hbreak & Hxbrl & Hnl).
  unfold filing_chunks, plain_text, doc_seven_chunks, lines_seven_chunks.
  rewrite (seven_lines_kept block_50000 Hxbrl Hnl).
  exact (seven_chunks_of_lines block_50000 Hlen Hblank Hbreak Hnl).
Qed.

(** C9, the code at a filing of seven chunks with an oracle configured:
    the mapper sends six chunks to the oracle, and [chunks_processed] is
    7. *)
Theorem chunks_processed_over_cap :
  length (oracle_submissions (Some (client_claiming "item_2" "part_1"))
            no_match no_visuals (client_claiming "item_2" "part_1")
            doc_seven_chunks []
            (filing_chunks plain_text doc_seven_chunks)) = 6
  /\ chunks_processed
       (parse_structured_filing (Some (client_claiming "item_2" "part_1"))
          no_match plain_text no_visuals doc_seven_chunks []) = 7.
Proof.
  split.
  - rewrite (proj2 (mapper_submits_first_six _ _ _ _ _ _ _)), seven_chunks.
    reflexivity.
  - rewrite chunks_processed_is_chunk_count. exact seven_chunks.
Qed.

(** * Further properties *)

(** ** More facts about the string primitives *)

Lemma str_eqb_refl (s : str) : str_eqb s s = true.
Proof. induction s as [|c s IH]; simpl; [reflexivity|]. now rewrite Ascii.eqb_refl. Qed.

Lemma str_eqb_eq (a b : str) : str_eqb a b = true <-> a = b.
Proof.
  split; [|intros ->; apply str_eqb_refl].
  revert b. induction a as [|x a IH]; intros [|y b]; simpl; try discriminate.
  - reflexivity.
  - intros H. apply andb_true_iff in H. destruct H as [E H].
    apply Ascii.eqb_eq in E. subst y. now rewrite (IH _ H).
Qed.

Lemma find_at_none (sub : str) :
  forall s i, find_at sub s i = None ->
              forall k, k <= length s -> prefixb sub (skipn k s) = false.
Proof.
  induction s as [|c s IH]; intros i; simpl.
  - destruct (prefixb sub []) eqn:E; [discriminate|].
    intros _ k Hk. replace k with 0 by lia. exact E.
  - destruct (prefixb sub (c :: s)) eqn:E; [discriminate|].
    intros H [|k] Hk; [exact E|]. simpl. apply (IH _ H). lia.
Qed.

(** An occurrence at some offset makes [contains] true. *)
Lemma contains_at (sub s : str) (k : nat) :
  prefixb sub (skipn k s) = true -> contains sub s = true.
Proof.
  intros H. unfold contains.
  destruct (find_at sub s 0) eqn:E; [reflexivity|].
  destruct (Nat.le_gt_cases k (length s)) as [Hk|Hk].
  - now rewrite (find_at_none _ _ _ E k Hk) in H.
  - rewrite skipn_all2 in H by lia.
    pose proof (find_at_none _ _ _ E (length s) (Nat.le_refl _)) as F.
    rewrite skipn_all in F. congruence.
Qed.

Lemma contains_occurrence (sub s : str) :
  contains sub s = true ->
  exists before after, s = before ++ sub ++ after.
Proof.
  unfold contains. destruct (find_at sub s 0) eqn:E; [|discriminate].
  intros _. destruct (find_at_some _ _ _ _ E) as (k & _ & Hk & Hp).
  destruct (prefixb_app _ _ Hp) as (t & Ht).
  exists (firstn k s), t. now rewrite <- Ht, firstn_skipn.
Qed.

Lemma occurrence_contains (sub before after : str) :
  contains sub (before ++ sub ++ after) = true.
Proof.
  apply (contains_at _ _ (length before)).
  rewrite skipn_app, skipn_all, Nat.sub_diag. simpl. apply prefixb_app_refl.
Qed.

Lemma contains_nil (s : str) : contains [] s = true.
Proof. unfold contains. now destruct s. Qed.

(** [upper] leaves no lower-case letter, and case mapping after it is that
    of the text. *)
Lemma upper_char_not_lower (c : ascii) : is_lower_letter (upper_char c) = false.
Proof. destruct c as [[] [] [] [] [] [] [] []]; reflexivity. Qed.

Lemma lower_upper_char (c : ascii) : lower_char (upper_char c) = lower_char c.
Proof. destruct c as [[] [] [] [] [] [] [] []]; reflexivity. Qed.

Lemma lower_upper (s : str) : lower (upper s) = lower s.
Proof.
  unfold lower, upper. rewrite map_map. apply map_ext. apply lower_upper_char.
Qed.

Lemma contains_upper_no_lower (m s : str) :
  existsb is_lower_letter m = true -> contains m (upper s) = false.
Proof.
  intros H. destruct (contains m (upper s)) eqn:C; [|reflexivity].
  destruct (contains_occurrence _ _ C) as (b & a & E).
  apply existsb_exists in H. destruct H as (c & Hc & Hl).
  assert (Hin : In c (upper s)).
  { rewrite E. apply in_or_app. right. apply in_or_app. now left. }
  unfold upper in Hin. apply in_map_iff in Hin. destruct Hin as (x & <- & _).
  now rewrite upper_char_not_lower in Hl.
Qed.

Lemma contains_longer (p q s : str) :
  contains (p ++ q) s = true -> contains p s = true.
Proof.
  intros C. destruct (contains_occurrence _ _ C) as (b & a & ->).
  rewrite <- app_assoc. apply occurrence_contains.
Qed.

Lemma rstrip_app_blank (s : str) (c : ascii) :
  is_space c = true -> rstrip (s ++ [c]) = rstrip s.
Proof.
  intros H. induction s as [|x s IH]; simpl; [now rewrite H|now rewrite IH].
Qed.

Lemma strip_line_end (s : str) : strip (s ++ [nl]) = strip s.
Proof. unfold strip. now rewrite rstrip_app_blank. Qed.

(** ** The chunk splitter, further *)

(** X1.  Only "PART I" and "SIGNATURES" make a section break: a line is
    upper-cased before the markers are looked for, so the sixteen markers
    "Item 1." to "Item 16.", which have lower-case letters, never occur,
    and the other "PART" markers contain "PART I". *)
Theorem section_break_markers (line : str) :
  is_section_break line
  = contains (lit "PART I") (upper (strip line))
    || contains (lit "SIGNATURES") (upper (strip line)).
Proof.
  unfold is_section_break. set (u := upper (strip line)).
  apply eq_true_iff_eq. rewrite orb_true_iff. split.
  - unfold any_in. intros H. apply existsb_exists in H.
    destruct H as (m & Hm & C). unfold section_markers in Hm. simpl in Hm.
    repeat (destruct Hm as [<-|Hm];
            [first [ now left
                   | now right
                   | left; exact (contains_longer (lit "PART I") _ _ C)
                   | unfold u in C;
                     rewrite contains_upper_no_lower in C by reflexivity;
                     discriminate ]|]).
    destruct Hm.
  - unfold any_in. intros [C|C]; apply existsb_exists.
    + exists (lit "PART I"). split; [now left|exact C].
    + exists (lit "SIGNATURES"). split; [|exact C].
      unfold section_markers. simpl. do 20 right. now left.
Qed.

Lemma split_loop_no_flush (max : Z) (lines : list str) :
  forall st,
    chunks st = [] ->
    Forall (fun line => is_section_break line = false) lines
    \/ (Z.of_nat (length (current_chunk st))
        + Z.of_nat (length (concat (map (fun l => l ++ [nl]) lines)))
        <= max + 1)%Z ->
    chunks (split_loop max lines st) = [] /\
    current_chunk (split_loop max lines st)
    = current_chunk st ++ concat (map (fun l => l ++ [nl]) lines).
Proof.
  unfold split_loop.
  induction lines as [|line lines IH]; intros st Hc H; cbn [fold_left map concat].
  - now rewrite app_nil_r.
  - cbn [map concat] in H.
    assert (E : split_step max st line
                = {| chunks := chunks st;
                     current_chunk := current_chunk st ++ line ++ [nl] |}).
    { unfold split_step. destruct H as [H|H].
      - inversion H; subst. now rewrite H2, andb_false_r.
      - rewrite !length_app in H. cbn [length] in H.
        replace (_ >? max)%Z with false; [reflexivity|].
        symmetry. rewrite Z.gtb_ltb. apply Z.ltb_ge. lia. }
    rewrite E. destruct (IH {| chunks := chunks st;
                               current_chunk := current_chunk st ++ line ++ [nl] |})
      as [H1 H2]; [exact Hc| |].
    + destruct H as [H|H]; [left; now inversion H|right].
      cbn [current_chunk]. rewrite !length_app in *. cbn [length] in *. lia.
    + split; [exact H1|]. rewrite H2. cbn [current_chunk].
      now rewrite <- !app_assoc.
Qed.

Lemma split_single (text_content : str) (max_chunk_size : Z) :
  Forall (fun line => is_section_break line = false) (split_nl text_content)
  \/ (Z.of_nat (length text_content) <= max_chunk_size)%Z ->
  _split_content_intelligently text_content max_chunk_size
  = if all_blank text_content then [] else [strip text_content].
Proof.
  intros H. unfold _split_content_intelligently.
  destruct (split_loop_no_flush max_chunk_size (split_nl text_content)
              {| chunks := []; current_chunk := [] |} eq_refl) as [Hc Hb].
  { destruct H as [H|H]; [now left|right].
    rewrite lines_with_nl_split, length_app. cbn [current_chunk length]. lia. }
  rewrite Hc, Hb, lines_with_nl_split. cbn [current_chunk app].
  rewrite strip_line_end.
  destruct (all_blank text_content) eqn:B.
  - apply strip_nil_iff in B. now rewrite B.
  - destruct (strip text_content) eqn:S; [|reflexivity].
    apply strip_nil_iff in S. congruence.
Qed.

(** X2.  A text none of whose lines is a section break is never cut,
    whatever its size: it comes back as one trimmed chunk (none if it is
    blank). *)
Theorem no_break_one_chunk (text_content : str) (max_chunk_size : Z) :
  Forall (fun line => is_section_break line = false) (split_nl text_content) ->
  _split_content_intelligently text_content max_chunk_size
  = if all_blank text_content then [] else [strip text_content].
Proof. intros H. apply split_single. now left. Qed.

Lemma no_break_one_chunk_witness :
  _split_content_intelligently
    (lit "Item 1. Business" ++ [nl] ++ lit "Item 1A. Risk Factors") 5
  = [lit "Item 1. Business" ++ [nl] ++ lit "Item 1A. Risk Factors"].
Proof.
  apply (no_break_one_chunk
           (lit "Item 1. Business" ++ [nl] ++ lit "Item 1A. Risk Factors") 5).
  repeat (apply Forall_cons; [reflexivity|]). apply Forall_nil.
Defined.

(** X3.  A text no longer than the maximum chunk size is never cut, section
    breaks or not. *)
Theorem within_limit_one_chunk (text_content : str) (max_chunk_size : Z) :
  (Z.of_nat (length text_content) <= max_chunk_size)%Z ->
  _split_content_intelligently text_content max_chunk_size
  = if all_blank text_content then [] else [strip text_content].
Proof. intros H. apply split_single. now right. Qed.

Lemma within_limit_one_chunk_witness :
  _split_content_intelligently
    (lit "PART I" ++ [nl] ++ lit "text" ++ [nl] ++ lit "PART II") 50
  = [lit "PART I" ++ [nl] ++ lit "text" ++ [nl] ++ lit "PART II"].
Proof.
  apply (within_limit_one_chunk
           (lit "PART I" ++ [nl] ++ lit "text" ++ [nl] ++ lit "PART II") 50).
  vm_compute. discriminate.
Defined.

(** ** The content preprocessor, further *)

Lemma lines_with_nl_join (lines : list str) :
  lines <> [] ->
  concat (map (fun l => l ++ [nl]) lines) = join_nl lines ++ [nl].
Proof.
  induction lines as [|l ls IH]; [congruence|]. intros _.
  destruct ls as [|l' ls]; [simpl; now rewrite app_nil_r|].
  rewrite join_nl_cons by discriminate. cbn [map concat].
  cbn [map concat] in IH. rewrite IH by discriminate.
  now rewrite <- !app_assoc.
Qed.

Lemma subseq_lines_size {A} (f : A -> nat) (a b : list A) :
  subseq a b -> list_sum (map f a) <= list_sum (map f b).
Proof. induction 1; simpl; lia. Qed.

Lemma length_concat_sum (ls : list str) :
  length (concat ls) = list_sum (map (@length ascii) ls).
Proof.
  induction ls as [|l ls IH]; simpl; [reflexivity|].
  now rewrite length_app, IH.
Qed.

Lemma subseq_nil_r {A} (a : list A) : subseq a [] -> a = [].
Proof. now inversion 1. Qed.

Lemma subseq_join_length (a b : list str) :
  subseq a b -> length (join_nl a) <= length (join_nl b).
Proof.
  intros H. destruct a as [|x a]; [simpl; lia|].
  destruct b as [|y b]; [now apply subseq_nil_r in H|].
  assert (E : length (concat (map (fun l => l ++ [nl]) (x :: a)))
              <= length (concat (map (fun l => l ++ [nl]) (y :: b)))).
  { rewrite !length_concat_sum, !map_map. now apply subseq_lines_size. }
  rewrite !lines_with_nl_join, !length_app in E by discriminate.
  change (length [nl]) with 1 in E. lia.
Qed.

Lemma subseq_Forall {A} (P : A -> Prop) (a b : list A) :
  subseq a b -> Forall P b -> Forall P a.
Proof.
  induction 1; intros Hb; [constructor| |].
  - inversion Hb; auto.
  - inversion Hb; subst. constructor; auto.
Qed.

Lemma split_nl_free (s : str) :
  Forall (fun l => forallb (fun c => negb (Ascii.eqb c nl)) l = true)
         (split_nl s).
Proof.
  induction s as [|c s IH]; simpl.
  - constructor; [reflexivity|constructor].
  - destruct (Ascii.eqb c nl) eqn:E.
    + constructor; [reflexivity|exact IH].
    + destruct (split_nl_cons s) as (l & ls & S). rewrite S in *.
      inversion IH; subst. constructor; [|assumption].
      simpl. now rewrite E.
Qed.

(** The output is made of lines of the input, in their order. *)
Lemma preprocess_subseq (text_content : str) :
  exists kept,
    _preprocess_filing_content text_content = join_nl kept /\
    subseq kept (split_nl text_content).
Proof.
  unfold _preprocess_filing_content, pre_scan.
  destruct (pre_scan_from_subseq (split_nl text_content) pre_init)
    as (kept & E & S). cbn [pre_init cleaned_lines app] in E.
  destruct (_ && _)%bool.
  - unfold position_based.
    destruct (position_scan _ _) as [suffix|] eqn:P.
    + exists suffix. split; [reflexivity|].
      eapply subseq_trans; [eapply position_scan_subseq; eauto|].
      apply subseq_skipn.
    + exists kept. now rewrite E.
  - exists kept. now rewrite E.
Qed.

(** X4.  The preprocessor never returns more than it was given, so the
    cleaned length a parse reports is at most the total length. *)
Theorem cleaned_not_longer (anthropic_client : option Client)
  (re_search : bool -> str -> str -> option nat) (soup_get_text : str -> str)
  (fv : str -> str -> str -> str -> list VisualElement)
  (filing_content filing_url text_content : str) :
  length (_preprocess_filing_content text_content) <= length text_content
  /\ cleaned_length
       (parse_structured_filing anthropic_client re_search soup_get_text fv
          filing_content filing_url)
     <= total_length
          (parse_structured_filing anthropic_client re_search soup_get_text fv
             filing_content filing_url).
Proof.
  assert (H : forall t, length (_preprocess_filing_content t) <= length t).
  { intros t. destruct (preprocess_subseq t) as (kept & E & S).
    rewrite E. rewrite <- (join_nl_split t) at 1.
    now apply subseq_join_length. }
  split; [apply H|]. unfold parse_structured_filing.
  cbn [cleaned_length total_length]. apply H.
Qed.

(** What a step of the scan does with the line: nothing, or it keeps it,
    and then the line has no machine-tagging indicator, and either the
    narrative had started or the line passes one of the two
    narrative-start tests. *)
Lemma pre_step_kept (st : pre_state) (line : str) :
  (found_narrative_start (pre_step st line) = found_narrative_start st /\
   cleaned_lines (pre_step st line) = cleaned_lines st)
  \/ (found_narrative_start (pre_step st line) = true /\
      cleaned_lines (pre_step st line) = cleaned_lines st ++ [line] /\
      no_xbrl_indicator line = true /\
      (found_narrative_start st = true
       \/ toc_exit_line line || narrative_start_line line = true)).
Proof.
  unfold no_xbrl_indicator, toc_exit_line, narrative_start_line, pre_step.
  cbv zeta.
  destruct (any_in xbrl_indicators (lower (strip line))) eqn:X;
    [left; split; reflexivity|].
  destruct (found_narrative_start st) eqn:F;
    repeat match goal with
           | |- context [if ?b then _ else _] => destruct b eqn:?
           end;
    cbn [found_narrative_start cleaned_lines negb];
    first [ left; split; reflexivity
          | right; repeat split; auto; right;
            repeat match goal with
                   | H : _ = true |- _ => rewrite H
                   end; cbn [orb]; auto using orb_true_r ].
Qed.

Lemma pre_scan_invariant (lines : list str) :
  forall st,
    scan_invariant_holds st ->
    scan_invariant_holds (fold_left pre_step lines st).
Proof.
  induction lines as [|line lines IH]; intros st H; cbn [fold_left];
    [exact H|].
  apply IH. destruct H as [Hx Hf]. unfold scan_invariant_holds.
  destruct (pre_step_kept st line) as [[F C]|(F & C & X & N)];
    rewrite F, C.
  - now split.
  - split; [apply Forall_app; split; [exact Hx|now constructor]|].
    destruct (found_narrative_start st).
    + destruct Hf as (first & rest & -> & S).
      exists first, (rest ++ [line]). now split.
    + rewrite Hf. exists line, []. split; [reflexivity|].
      destruct N as [N|N]; [discriminate|exact N].
Qed.

(** When the narrative start was found, the lines of the output are the
    lines the scan kept. *)
Lemma preprocess_found_lines (text_content : str) :
  found_narrative_start (pre_scan (split_nl text_content)) = true ->
  split_nl (_preprocess_filing_content text_content)
  = cleaned_lines (pre_scan (split_nl text_content)) /\
  scan_invariant_holds (pre_scan (split_nl text_content)).
Proof.
  intros F.
  assert (I : scan_invariant_holds (pre_scan (split_nl text_content))).
  { apply pre_scan_invariant. split; [constructor|reflexivity]. }
  split; [|exact I].
  unfold _preprocess_filing_content. rewrite F. cbn [negb andb].
  destruct I as [_ I]. rewrite F in I. destruct I as (first & rest & E & _).
  apply split_nl_join_nl; [rewrite E; discriminate|].
  destruct (pre_scan_from_subseq (split_nl text_content) pre_init)
    as (kept & K & S). cbn [pre_init cleaned_lines app] in K.
  unfold pre_scan. rewrite K.
  exact (subseq_Forall _ _ _ S (split_nl_free text_content)).
Qed.

(** X5.  When a narrative start is found, no line of the output carries a
    machine-tagging indicator ("xbrl", "taxonomy", "namespace", "schema",
    "context id=", "entity identifier"), wherever it stood in the input. *)
Theorem cleaned_without_tagging (text_content : str) :
  found_narrative_start (pre_scan (split_nl text_content)) = true ->
  Forall (fun line => no_xbrl_indicator line = true)
         (split_nl (_preprocess_filing_content text_content)).
Proof.
  intros F. destruct (preprocess_found_lines text_content F) as [-> [H _]].
  exact H.
Qed.

Lemma cleaned_without_tagging_witness :
  Forall (fun line => no_xbrl_indicator line = true)
         (split_nl (_preprocess_filing_content
                      (lit "Item 1. Business overview" ++ [nl]
                       ++ lit "xbrl taxonomy 2024" ++ [nl]
                       ++ lit "We sell things."))).
Proof.
  apply (cleaned_without_tagging
           (lit "Item 1. Business overview" ++ [nl]
            ++ lit "xbrl taxonomy 2024" ++ [nl] ++ lit "We sell things.")).
  reflexivity.
Defined.

(** X6.  When a narrative start is found, the output begins with a line
    that passes one of the two narrative-start tests: everything before
    the first such line is dropped. *)
Theorem cleaned_begins_at_narrative (text_content : str) :
  found_narrative_start (pre_scan (split_nl text_content)) = true ->
  exists first rest,
    split_nl (_preprocess_filing_content text_content) = first :: rest /\
    toc_exit_line first || narrative_start_line first = true.
Proof.
  intros F. destruct (preprocess_found_lines text_content F) as [-> [_ H]].
  now rewrite F in H.
Qed.

Lemma cleaned_begins_at_narrative_witness :
  exists first rest,
    split_nl (_preprocess_filing_content
                (lit "Cover page" ++ [nl]
                 ++ lit "The Company operates in two segments." ++ [nl]
                 ++ lit "More.")) = first :: rest /\
    toc_exit_line first || narrative_start_line first = true.
Proof.
  apply (cleaned_begins_at_narrative
           (lit "Cover page" ++ [nl]
            ++ lit "The Company operates in two segments." ++ [nl]
            ++ lit "More.")).
  reflexivity.
Defined.

(** ** The section content extractor *)

Lemma lstrip_length (s : str) : length (lstrip s) <= length s.
Proof.
  induction s as [|c s IH]; simpl; [lia|].
  destruct (is_space c); simpl; lia.
Qed.

Lemma rstrip_length (s : str) : length (rstrip s) <= length s.
Proof.
  induction s as [|c s IH]; simpl; [lia|].
  destruct (rstrip s); [destruct (is_space c)|]; simpl in *; lia.
Qed.

Lemma strip_length (s : str) : length (strip s) <= length s.
Proof.
  unfold strip. pose proof (lstrip_length (rstrip s)).
  pose proof (rstrip_length s). lia.
Qed.

Lemma slice_from_start (n : nat) (s : str) : slice 0 n s = firstn n s.
Proof. unfold slice. now rewrite Nat.sub_0_r. Qed.

Lemma firstn_slice (n a b : nat) (s : str) :
  firstn n (slice a (a + b) s) = slice a (a + Nat.min n b) s.
Proof.
  unfold slice. rewrite firstn_firstn.
  now rewrite !(Nat.add_comm a), !Nat.add_sub.
Qed.

(** What the oracle's boundary is accepted as: a position strictly inside
    the window, that leaves at least 500 characters once trimmed. *)
Lemma llm_boundary_some (client : Client) (chunk id content : str) :
  _llm_find_section_boundary client chunk id = Some content ->
  500 <= length content /\
  exists pos,
    0 < pos < length chunk /\ content = strip (firstn pos chunk).
Proof.
  unfold _llm_find_section_boundary.
  destruct (boundary_reply client id (firstn 8000 chunk)) as [text|];
    [|discriminate].
  cbv zeta. destruct (isdigit (strip text)); [|discriminate].
  destruct (_ && _)%bool eqn:B; [|discriminate].
  destruct (500 <=? _) eqn:L; [|discriminate].
  intros [= <-]. apply Nat.leb_le in L. split; [exact L|].
  apply andb_true_iff in B. destruct B as [B1 B2].
  apply N.ltb_lt in B1, B2.
  exists (N.to_nat (int_of_digits (strip text))). split; [lia|reflexivity].
Qed.

(** X7.  The oracle's section boundary is only ever used as a cut of the
    window: an accepted result is the window trimmed after a position
    strictly inside it, and has at least 500 characters.  A window of 500
    characters or fewer never gets an oracle boundary. *)
Theorem llm_boundary_is_cut (client : Client) (chunk id content : str) :
  _llm_find_section_boundary client chunk id = Some content ->
  500 <= length content /\
  500 < length chunk /\
  exists pos,
    0 < pos < length chunk /\ content = strip (firstn pos chunk).
Proof.
  intros H. destruct (llm_boundary_some _ _ _ _ H) as (L & pos & Hp & E).
  split; [exact L|]. split; [|now exists pos].
  subst content. pose proof (strip_length (firstn pos chunk)) as S.
  pose proof (firstn_le_length pos chunk). lia.
Qed.

Lemma regex_boundary_fold (re_search : bool -> str -> str -> option nat)
  (search_text : str) (len : nat) (patterns : list str) :
  forall m,
    Nat.min 500 len <= m <= len ->
    Nat.min 500 len
    <= fold_left
         (fun min_end_pos pattern =>
            match re_search true pattern search_text with
            | Some start => Nat.min min_end_pos (500 + start)
            | None => min_end_pos
            end) patterns m
    <= len.
Proof.
  induction patterns as [|p ps IH]; intros m Hm; cbn [fold_left]; [exact Hm|].
  apply IH. destruct (re_search true p search_text); lia.
Qed.

Lemma regex_boundary_some (re_search : bool -> str -> str -> option nat)
  (chunk id : str) :
  exists k,
    Nat.min 500 (length chunk) <= k <= length chunk /\
    _regex_find_section_boundary re_search chunk id = strip (firstn k chunk).
Proof.
  unfold _regex_find_section_boundary. cbv zeta.
  pose proof (regex_boundary_fold re_search (skipn 500 chunk) (length chunk)
                next_section_patterns (length chunk)) as F.
  destruct (100 <=? _).
  - eexists. split; [apply F; lia|reflexivity].
  - exists (Nat.min 5000 (length chunk)). split; [|reflexivity].
    assert (500 <= 5000) by (apply Nat.leb_le; vm_compute; reflexivity).
    lia.
Qed.

(** X8.  The pattern-based boundary never cuts before offset 500: whatever
    the expressions match, the result is the window trimmed after a
    position that is at least 500, or the end of a shorter window. *)
Theorem regex_boundary_is_cut (re_search : bool -> str -> str -> option nat)
  (chunk id : str) :
  exists k,
    Nat.min 500 (length chunk) <= k <= length chunk /\
    _regex_find_section_boundary re_search chunk id = strip (firstn k chunk).
Proof. apply regex_boundary_some. Qed.

(** X9.  Whatever the oracle and the expressions answer, the content
    extracted for a claim is a piece of the chunk, trimmed: the text
    between two offsets.  The oracle chooses where to cut; it supplies no
    text. *)
Theorem extracted_content_is_slice (anthropic_client : option Client)
  (re_search : bool -> str -> str -> option nat)
  (chunk : str) (section_info : SectionFound) :
  exists a b,
    _extract_section_content_from_chunk anthropic_client re_search chunk
      section_info
    = strip (slice a b chunk).
Proof.
  unfold _extract_section_content_from_chunk. cbv zeta.
  assert (P : exists a b,
             match dict_get (sf_section_id section_info) section_patterns with
             | Some patterns =>
                 match first_match re_search patterns (lower chunk) with
                 | Some start_pos =>
                     strip (slice start_pos (start_pos + 15000) chunk)
                 | None => strip (firstn 10000 chunk)
                 end
             | None => strip (firstn 10000 chunk)
             end = strip (slice a b chunk)).
  { destruct (dict_get _ section_patterns) as [patterns|];
      [destruct (first_match re_search patterns (lower chunk)) as [sp|]|];
      first [ now eexists; eexists
            | exists 0, 10000; now rewrite slice_from_start ]. }
  destruct (truthy (sf_content_start section_info)); [|exact P].
  destruct (find (lower chunk) _ 0) as [sp|]; [|exact P].
  assert (R : forall k, exists a b,
               strip (firstn k (slice sp (sp + 50000) chunk))
               = strip (slice a b chunk)).
  { intros k. rewrite firstn_slice. now eexists; eexists. }
  assert (G : exists a b,
             (if truthy (_regex_find_section_boundary re_search
                           (slice sp (sp + 50000) chunk)
                           (sf_section_id section_info))
              then _regex_find_section_boundary re_search
                     (slice sp (sp + 50000) chunk)
                     (sf_section_id section_info)
              else match dict_get (sf_section_id section_info) section_patterns with
                   | Some patterns =>
                       match first_match re_search patterns (lower chunk) with
                       | Some start_pos =>
                           strip (slice start_pos (start_pos + 15000) chunk)
                       | None => strip (firstn 10000 chunk)
                       end
                   | None => strip (firstn 10000 chunk)
                   end) = strip (slice a b chunk)).
  { destruct (truthy _); [|exact P].
    destruct (regex_boundary_some re_search (slice sp (sp + 50000) chunk)
                (sf_section_id section_info)) as (k & _ & ->).
    apply R. }
  destruct anthropic_client as [client|]; [|exact G].
  destruct (1000 <? _); [|exact G].
  destruct (_llm_find_section_boundary client _ _) as [[|c content]|] eqn:L;
    try exact G.
  destruct (llm_boundary_some _ _ _ _ L) as (_ & pos & _ & E).
  rewrite E. apply R.
Qed.

Lemma llm_boundary_is_cut_witness :
  exists content,
    _llm_find_section_boundary
      {| analyze_chunk := fun _ _ => None;
         boundary_reply := fun _ _ => Some (lit " 600 ") |}
      (repeat "x"%char 1000) (lit "item_2") = Some content
    /\ 500 <= length content.
Proof.
  eexists. split; [vm_compute; reflexivity|].
  refine (proj1 (llm_boundary_is_cut
                   {| analyze_chunk := fun _ _ => None;
                      boundary_reply := fun _ _ => Some (lit " 600 ") |}
                   (repeat "x"%char 1000) (lit "item_2") _ _)).
  vm_compute. reflexivity.
Defined.

(** ** The structure mapper, further *)

Lemma truthy_true_iff (s : str) : truthy s = true <-> s <> [].
Proof. destruct s; simpl; split; congruence. Qed.

Section MapperStructure.

Variable anthropic_client : option Client.
Variable re_search : bool -> str -> str -> option nat.
Variable _find_visuals_for_section : str -> str -> str -> str -> list VisualElement.
Variable client : Client.
Variable Inv : structure -> Prop.

(** Storing the section built for a claim of the oracle, with a content
    that is not empty, keeps [Inv]. *)
Hypothesis inv_store :
  forall i prefix analysis info,
    analyze_chunk client i prefix = Some analysis ->
    In info (sections_found analysis) ->
    forall parsed section_content section_visuals,
      Inv parsed -> section_content <> [] ->
      Inv (store_section parsed (sf_part info) (sf_section_id info)
             (build_section info section_content section_visuals)).

Lemma process_sections_invariant (filing_content filing_url chunk : str)
  (infos : list SectionFound) :
  (forall info, In info infos ->
     forall parsed c v, Inv parsed -> c <> [] ->
       Inv (store_section parsed (sf_part info) (sf_section_id info)
              (build_section info c v))) ->
  forall parsed,
    Inv parsed ->
    Inv (fold_left (process_section anthropic_client re_search
                      _find_visuals_for_section filing_content filing_url chunk)
                   infos parsed).
Proof.
  induction infos as [|info infos IH]; intros Hs parsed H; cbn [fold_left];
    [exact H|].
  apply IH; [intros; apply Hs; [now right|assumption|assumption]|].
  unfold process_section. cbv zeta.
  destruct (truthy _) eqn:T; [|exact H].
  apply truthy_true_iff in T.
  apply Hs; [now left|exact H|].
  destruct (_find_visuals_for_section _ _ _ _); [exact T|].
  intros E. apply app_eq_nil in E. now destruct E.
Qed.

Lemma llm_parse_invariant (filing_content filing_url : str)
  (chunks : list str) :
  Inv [] ->
  Inv (_llm_parse_structure_pydantic anthropic_client re_search
         _find_visuals_for_section client filing_content filing_url chunks).
Proof.
  intros H0. unfold _llm_parse_structure_pydantic, llm_map_loop.
  set (st0 := {| parsed_sections := []; submitted := [] |}).
  assert (H : Inv (parsed_sections st0)) by exact H0.
  clearbody st0. revert st0 H.
  induction (enumerate (firstn 6 chunks)) as [|[i chunk] ics IH];
    intros st H; cbn [fold_left]; [exact H|].
  apply IH. unfold map_chunk. cbn [parsed_sections].
  destruct (analyze_chunk client (i + 1) (firstn 8000 chunk)) eqn:A; [|exact H].
  apply process_sections_invariant; [|exact H].
  intros info Hin. exact (inv_store _ _ _ _ A Hin).
Qed.

End MapperStructure.

(** X10.  No section of a parsed filing has an empty content: the mapper
    stores a claim only when the extracted content is not empty, and the
    fallback section, cut out of an ASCII text, begins with the phrase it
    was found by. *)
Theorem stored_content_not_empty (anthropic_client : option Client)
  (re_search : bool -> str -> str -> option nat) (soup_get_text : str -> str)
  (fv : str -> str -> str -> str -> list VisualElement)
  (filing_content filing_url path : str) (fs : FilingSection) :
  match anthropic_client with
  | Some _ => True
  | None =>
      ascii_only (_preprocess_filing_content (soup_get_text filing_content))
      = true
  end ->
  In (path, fs)
     (all_sections []
        (pf_structure
           (parse_structured_filing anthropic_client re_search soup_get_text
              fv filing_content filing_url))) ->
  content fs <> [].
Proof.
  unfold parse_structured_filing. cbn [pf_structure].
  intros _ Hin.
  refine (structure_forall_sections (fun fs => content fs <> []) _ _ _ _ Hin).
  destruct anthropic_client as [client|].
  - apply llm_parse_invariant; [|constructor].
    intros i prefix analysis info _ _ parsed c v H Hc.
    now apply store_section_forall.
  - unfold _fallback_parse_structure.
    destruct (find (lower _) mda_phrase 0) as [mda_start|] eqn:F;
      constructor; [|constructor].
    apply value_forall_dict. split; [exact I|].
    constructor; [|constructor].
    cbn [snd value_forall content]. split; [|exact I].
    intros E. pose proof (mda_slice_prefix _ _ F) as P.
    rewrite E in P. discriminate.
Qed.

Lemma stored_content_not_empty_witness :
  (exists path fs,
     In (path, fs)
        (all_sections []
           (pf_structure
              (parse_structured_filing
                 (Some (client_claiming "item_2" "part_1"))
                 no_match plain_text no_visuals doc_small [])))
     /\ content fs <> [])
  /\ (exists path fs,
        In (path, fs)
           (all_sections []
              (pf_structure
                 (parse_structured_filing None no_match plain_text
                    no_visuals doc_small [])))
        /\ content fs <> []).
Proof.
  split.
  - assert (H : exists entry,
               In entry
                  (all_sections []
                     (pf_structure
                        (parse_structured_filing
                           (Some (client_claiming "item_2" "part_1"))
                           no_match plain_text no_visuals doc_small []))))
      by (vm_compute; eexists; left; reflexivity).
    destruct H as [[path fs] H]. exists path, fs. split; [exact H|].
    exact (stored_content_not_empty
             (Some (client_claiming "item_2" "part_1"))
             no_match plain_text no_visuals doc_small [] path fs I H).
  - assert (H : exists entry,
               In entry
                  (all_sections []
                     (pf_structure
                        (parse_structured_filing None no_match plain_text
                           no_visuals doc_small []))))
      by (vm_compute; eexists; left; reflexivity).
    destruct H as [[path fs] H]. exists path, fs. split; [exact H|].
    exact (stored_content_not_empty None no_match plain_text no_visuals
             doc_small [] path fs eq_refl H).
Defined.

(** X11.  An oracle that fails on every chunk leaves the structure empty:
    the parse returns, with no section. *)
Theorem oracle_down_empty_structure (client : Client)
  (re_search : bool -> str -> str -> option nat) (soup_get_text : str -> str)
  (fv : str -> str -> str -> str -> list VisualElement)
  (filing_content filing_url : str) :
  (forall i prefix, analyze_chunk client i prefix = None) ->
  pf_structure
    (parse_structured_filing (Some client) re_search soup_get_text fv
       filing_content filing_url) = [].
Proof.
  intros Hdown. unfold parse_structured_filing. cbn [pf_structure].
  apply (llm_parse_invariant (Some client) re_search fv client
           (fun st => st = [])); [|reflexivity].
  intros i prefix analysis info A. now rewrite Hdown in A.
Qed.

Lemma oracle_down_empty_structure_witness :
  pf_structure
    (parse_structured_filing
       (Some {| analyze_chunk := fun _ _ => None;
                boundary_reply := fun _ _ => None |})
       no_match plain_text no_visuals doc_small []) = [].
Proof.
  apply (oracle_down_empty_structure
           {| analyze_chunk := fun _ _ => None;
              boundary_reply := fun _ _ => None |}).
  reflexivity.
Defined.

(** ** Dictionaries *)

Lemma dict_get_set_same {V} (k : str) (v : V) (d : dict V) :
  dict_get k (dict_set k v d) = Some v.
Proof.
  induction d as [|[k' v'] d IH]; simpl.
  - now rewrite str_eqb_refl.
  - destruct (str_eqb k k') eqn:E; simpl; rewrite E; [reflexivity|exact IH].
Qed.

Lemma dict_set_set {V} (k : str) (v1 v2 : V) (d : dict V) :
  dict_set k v2 (dict_set k v1 d) = dict_set k v2 d.
Proof.
  induction d as [|[k' v'] d IH]; simpl.
  - now rewrite str_eqb_refl.
  - destruct (str_eqb k k') eqn:E; simpl; rewrite E; [reflexivity|].
    now rewrite IH.
Qed.

Lemma dict_get_app_new {V} (k : str) (v : V) (d : dict V) :
  dict_get k d = None -> dict_get k (d ++ [(k, v)]) = Some v.
Proof.
  induction d as [|[k' v'] d IH]; simpl.
  - now rewrite str_eqb_refl.
  - destruct (str_eqb k k'); [discriminate|exact IH].
Qed.

Lemma dict_set_app_new {V} (k : str) (v1 v2 : V) (d : dict V) :
  dict_get k d = None ->
  dict_set k v2 (d ++ [(k, v1)]) = d ++ [(k, v2)].
Proof.
  induction d as [|[k' v'] d IH]; simpl.
  - now rewrite str_eqb_refl.
  - destruct (str_eqb k k'); [discriminate|]. intros H. now rewrite IH.
Qed.

Lemma dict_set_new {V} (k : str) (v : V) (d : dict V) :
  dict_get k d = None -> dict_set k v d = d ++ [(k, v)].
Proof.
  induction d as [|[k' v'] d IH]; simpl; [reflexivity|].
  destruct (str_eqb k k'); [discriminate|]. intros H. now rewrite IH.
Qed.

Lemma dict_get_none_keys {V} (k : str) (d : dict V) :
  dict_get k d = None <-> ~ In k (map fst d).
Proof.
  induction d as [|[k' v'] d IH]; simpl; [tauto|].
  destruct (str_eqb k k') eqn:E.
  - apply str_eqb_eq in E. subst. split; [discriminate|tauto].
  - rewrite IH. split; [|tauto]. intros H [<-|Hin]; [|tauto].
    now rewrite str_eqb_refl in E.
Qed.

Lemma dict_get_in {V} (k : str) (v : V) (d : dict V) :
  NoDup (map fst d) -> In (k, v) d -> dict_get k d = Some v.
Proof.
  induction d as [|[k' v'] d IH]; simpl; [tauto|].
  intros N [[= -> ->]|Hin]; [now rewrite str_eqb_refl|].
  inversion N; subst. destruct (str_eqb k k') eqn:E; [|now apply IH].
  apply str_eqb_eq in E. subst k'. exfalso. apply H1.
  apply in_map_iff. now exists (k, v).
Qed.

Lemma dict_get_some_in {V} (k : str) (v : V) (d : dict V) :
  dict_get k d = Some v -> exists k', k' = k /\ In (k', v) d.
Proof.
  induction d as [|[k' v'] d IH]; simpl; [discriminate|].
  destruct (str_eqb k k') eqn:E.
  - intros [= <-]. apply str_eqb_eq in E. exists k'. auto.
  - intros H. destruct (IH H) as (k2 & Hk & Hin). exists k2. auto.
Qed.

Lemma dict_set_keys {V} (k : str) (v : V) (d : dict V) :
  map fst (dict_set k v d)
  = match dict_get k d with
    | Some _ => map fst d
    | None => map fst d ++ [k]
    end.
Proof.
  induction d as [|[k' v'] d IH]; simpl; [reflexivity|].
  destruct (str_eqb k k'); simpl; [reflexivity|].
  rewrite IH. now destruct (dict_get k d).
Qed.

Lemma dict_set_nodup {V} (k : str) (v : V) (d : dict V) :
  NoDup (map fst d) -> NoDup (map fst (dict_set k v d)).
Proof.
  intros N. rewrite dict_set_keys.
  destruct (dict_get k d) eqn:G; [exact N|].
  apply dict_get_none_keys in G.
  apply NoDup_app; [exact N|constructor; [tauto|constructor]|].
  intros x Hx [<-|[]]. tauto.
Qed.

Lemma dict_get_set {V} (k k' : str) (v : V) (d : dict V) :
  dict_get k' (dict_set k v d)
  = if str_eqb k' k then Some v else dict_get k' d.
Proof.
  induction d as [|[k0 v0] d IH]; simpl.
  - now destruct (str_eqb k' k).
  - destruct (str_eqb k k0) eqn:E; simpl.
    + apply str_eqb_eq in E. subst k0. now destruct (str_eqb k' k).
    + rewrite IH. destruct (str_eqb k' k0) eqn:E0; [|reflexivity].
      apply str_eqb_eq in E0. subst k0.
      destruct (str_eqb k' k) eqn:E1; [|reflexivity].
      apply str_eqb_eq in E1. subst k'. now rewrite str_eqb_refl in E.
Qed.

Lemma dict_get_app {V} (k : str) (d1 d2 : dict V) :
  dict_get k (d1 ++ d2)
  = match dict_get k d1 with
    | Some v => Some v
    | None => dict_get k d2
    end.
Proof.
  induction d1 as [|[k0 v0] d1 IH]; simpl; [reflexivity|].
  now destruct (str_eqb k k0).
Qed.

Lemma str_eqb_neq (a b : str) : a <> b -> str_eqb a b = false.
Proof.
  intros H. destruct (str_eqb a b) eqn:E; [|reflexivity].
  apply str_eqb_eq in E. contradiction.
Qed.

(** What a store leaves at the place it wrote to, and at the others. *)
Lemma stored_entry_same (parsed : structure) (part_id id : str)
  (fs : FilingSection) :
  part_writable parsed part_id = true ->
  stored_entry (store_section parsed part_id id fs) part_id id
  = Some (VDict (Some fs) None).
Proof.
  unfold part_writable, stored_entry, store_section.
  destruct (dict_get part_id parsed) as [[|sec [subs|]]|] eqn:G;
    try discriminate; intros _.
  - rewrite dict_get_set_same. apply dict_get_set_same.
  - rewrite (dict_get_app_new _ _ _ G). simpl. now rewrite str_eqb_refl.
Qed.

Lemma stored_entry_other (parsed : structure) (part_id id part_id' id' : str)
  (fs : FilingSection) :
  part_writable parsed part_id = true ->
  part_id' <> part_id \/ id' <> id ->
  stored_entry (store_section parsed part_id id fs) part_id' id'
  = stored_entry parsed part_id' id'.
Proof.
  unfold part_writable, stored_entry, store_section.
  destruct (dict_get part_id parsed) as [[|sec [subs|]]|] eqn:G;
    try discriminate; intros _ Hne.
  - rewrite dict_get_set.
    destruct (str_eqb part_id' part_id) eqn:E; [|reflexivity].
    apply str_eqb_eq in E. subst part_id'. rewrite G.
    destruct Hne as [Hne|Hne]; [contradiction|].
    apply str_eqb_neq in Hne. now rewrite dict_get_set, Hne.
  - rewrite dict_get_app. cbn [dict_get].
    destruct (dict_get part_id' parsed) as [v|] eqn:G'; [reflexivity|].
    destruct (str_eqb part_id' part_id) eqn:E; [|reflexivity].
    destruct Hne as [Hne|Hne].
    + apply str_eqb_eq in E. contradiction.
    + apply str_eqb_neq in Hne. cbn [dict_get]. now rewrite Hne.
Qed.

Lemma store_section_twice (parsed : structure) (part_id id : str)
  (first second : FilingSection) :
  store_section (store_section parsed part_id id first) part_id id second
  = store_section parsed part_id id second.
Proof.
  unfold store_section.
  destruct (dict_get part_id parsed) as [[|sec [subs|]]|] eqn:G.
  - now rewrite G.
  - rewrite dict_get_set_same, dict_set_set. now rewrite dict_set_set.
  - now rewrite G.
  - rewrite (dict_get_app_new _ _ _ G). cbn [dict_set].
    rewrite str_eqb_refl. now apply dict_set_app_new.
Qed.

(** X12.  A store replaces what was at its place and nothing else.  When
    the part is new or has subsections (the assignment does not raise),
    the structure then holds the section stored at that part and
    identifier, every other place holds what it held, and a section stored
    before at the same place leaves no trace: the last write wins. *)
Theorem last_write_wins (parsed : structure) (part_id id : str)
  (first second : FilingSection) :
  part_writable parsed part_id = true ->
  stored_entry (store_section parsed part_id id second) part_id id
  = Some (VDict (Some second) None)
  /\ (forall part_id' id',
        part_id' <> part_id \/ id' <> id ->
        stored_entry (store_section parsed part_id id second) part_id' id'
        = stored_entry parsed part_id' id')
  /\ store_section (store_section parsed part_id id first) part_id id second
     = store_section parsed part_id id second.
Proof.
  intros W. split; [now apply stored_entry_same|]. split.
  - intros part_id' id' Hne. now apply stored_entry_other.
  - apply store_section_twice.
Qed.

Lemma last_write_wins_witness :
  stored_entry
    (store_section
       [ (lit "part_1",
          VDict None
            (Some [ (lit "item_1",
                     VDict (Some (plain_section "item_1" "kept")) None) ])) ]
       (lit "part_1") (lit "item_2") (plain_section "item_2" "second"))
    (lit "part_1") (lit "item_2")
  = Some (VDict (Some (plain_section "item_2" "second")) None)
  /\ stored_entry
       (store_section
          [ (lit "part_1",
             VDict None
               (Some [ (lit "item_1",
                        VDict (Some (plain_section "item_1" "kept")) None) ])) ]
          (lit "part_1") (lit "item_2") (plain_section "item_2" "second"))
       (lit "part_1") (lit "item_1")
     = Some (VDict (Some (plain_section "item_1" "kept")) None).
Proof.
  destruct (last_write_wins
              [ (lit "part_1",
                 VDict None
                   (Some [ (lit "item_1",
                            VDict (Some (plain_section "item_1" "kept"))
                                  None) ])) ]
              (lit "part_1") (lit "item_2")
              (plain_section "item_2" "first")
              (plain_section "item_2" "second") eq_refl) as (S & O & _).
  split; [exact S|].
  rewrite (O (lit "part_1") (lit "item_1")); [reflexivity|].
  right. discriminate.
Defined.

(** In every state the mapper reaches, every part is new or has
    subsections: its store never raises. *)
Lemma mapper_parts_writable (anthropic_client : option Client)
  (re_search : bool -> str -> str -> option nat)
  (fv : str -> str -> str -> str -> list VisualElement) (client : Client)
  (filing_content filing_url : str) (chunks : list str) (part_id : str) :
  part_writable
    (_llm_parse_structure_pydantic anthropic_client re_search fv client
       filing_content filing_url chunks) part_id = true.
Proof.
  revert part_id.
  apply (llm_parse_invariant anthropic_client re_search fv client
           (fun parsed => forall part_id, part_writable parsed part_id = true));
    [|reflexivity].
  intros i prefix analysis info _ _ parsed c v H _ p.
  specialize (H (sf_part info)) as Hp.
  unfold part_writable, store_section in *.
  destruct (dict_get (sf_part info) parsed) as [[|sec [subs|]]|] eqn:G;
    try discriminate.
  - rewrite dict_get_set. destruct (str_eqb p (sf_part info)); [reflexivity|].
    apply H.
  - rewrite dict_get_app. specialize (H p).
    destruct (dict_get p parsed) as [w|]; [exact H|].
    cbn [dict_get]. now destruct (str_eqb p (sf_part info)).
Qed.

(** ** Path lookup *)

Lemma split_char_cons (sep : ascii) (s : str) :
  exists l ls, split_char sep s = l :: ls.
Proof.
  induction s as [|c s IH]; simpl; [eauto|].
  destruct (Ascii.eqb c sep); [eauto|]. destruct IH as (l & ls & ->). eauto.
Qed.

Lemma split_char_free (sep : ascii) (s : str) :
  free_of sep s = true -> split_char sep s = [s].
Proof.
  unfold free_of. induction s as [|c s IH]; simpl; intros H; [reflexivity|].
  apply andb_true_iff in H. destruct H as [Hc Hs].
  apply negb_true_iff in Hc. now rewrite Hc, IH.
Qed.

Lemma split_char_app (sep : ascii) (a b : str) :
  free_of sep a = true ->
  split_char sep (a ++ sep :: b) = a :: split_char sep b.
Proof.
  unfold free_of. induction a as [|c a IH]; simpl; intros H.
  - now rewrite Ascii.eqb_refl.
  - apply andb_true_iff in H. destruct H as [Hc Ha].
    apply negb_true_iff in Hc. now rewrite Hc, IH.
Qed.

Lemma join_path_part (part id : str) :
  part <> [] -> join_path part id = part ++ dot :: id.
Proof. destruct part; [congruence|reflexivity]. Qed.

(** The sections of a structure of the parser's shape, with their paths. *)
Lemma two_level_sections (st : structure) (path : str) (fs : FilingSection) :
  Forall part_shaped st ->
  In (path, fs) (all_sections [] st) ->
  exists part items id,
    In (part, VDict None (Some items)) st /\
    In (id, VDict (Some fs) None) items /\
    free_of dot part = true /\ free_of dot id = true /\
    NoDup (map fst items) /\
    path = part ++ dot :: id.
Proof.
  intros W Hin. unfold all_sections in Hin. apply in_flat_map in Hin.
  destruct Hin as ([part v] & Hp & Hin). cbn [fst snd] in Hin.
  rewrite Forall_forall in W.
  destruct (W _ Hp) as (Fp & Np & items & Ev & Wi & Ni).
  cbn [fst snd] in *. subst v.
  rewrite value_sections_dict in Hin. cbn [app] in Hin.
  unfold all_sections in Hin. apply in_flat_map in Hin.
  destruct Hin as ([id v] & Hi & Hin). cbn [fst snd] in Hin.
  rewrite Forall_forall in Wi. destruct (Wi _ Hi) as (Fi & fs' & Ev).
  cbn [fst snd] in *. subst v. simpl in Hin.
  destruct Hin as [[= <- <-]|[]].
  exists part, items, id. repeat split; try assumption.
  now rewrite join_path_part.
Qed.

Lemma two_level_lookup (parsed_filing : ParsedFiling) (path : str)
  (fs : FilingSection) :
  two_level (pf_structure parsed_filing) ->
  In (path, fs) (all_sections [] (pf_structure parsed_filing)) ->
  _get_section_by_internal_path parsed_filing path = Found fs.
Proof.
  intros [W N] Hin.
  destruct (two_level_sections _ _ _ W Hin)
    as (part & items & id & Hp & Hi & Fp & Fi & Ni & ->).
  unfold _get_section_by_internal_path.
  rewrite split_char_app, split_char_free by assumption.
  cbn [walk_path]. rewrite (dict_get_in _ _ _ N Hp). cbn [step_into].
  now rewrite (dict_get_in _ _ _ Ni Hi).
Qed.

Lemma dict_set_Forall_entry {V} (Q : str * V -> Prop) (k : str) (v : V)
  (d : dict V) :
  Forall Q d -> Q (k, v) -> Forall Q (dict_set k v d).
Proof.
  intros H Hv. induction H as [|[k' v'] d Hq Hd IH]; simpl.
  - constructor; [exact Hv|constructor].
  - destruct (str_eqb k k') eqn:E; constructor; auto.
    apply str_eqb_eq in E. now subst k'.
Qed.

Lemma store_section_two_level (parsed : structure) (part_id id : str)
  (fs : FilingSection) :
  free_of dot part_id = true -> part_id <> [] -> free_of dot id = true ->
  two_level parsed -> two_level (store_section parsed part_id id fs).
Proof.
  intros Fp Np Fi [W N]. unfold store_section.
  assert (Hitem : item_shaped (id, VDict (Some fs) None)).
  { split; [exact Fi|now exists fs]. }
  destruct (dict_get part_id parsed) as [v|] eqn:G.
  - destruct (dict_get_some_in _ _ _ G) as (k & -> & Hin).
    pose proof W as W'. rewrite Forall_forall in W'.
    destruct (W' _ Hin) as (_ & _ & items & Ev & Wi & Ni).
    cbn [snd] in Ev. subst v. split; [|now apply dict_set_nodup].
    apply dict_set_Forall_entry; [exact W|].
    split; [exact Fp|]. split; [exact Np|].
    eexists. split; [reflexivity|].
    split; [now apply dict_set_Forall_entry|now apply dict_set_nodup].
  - split.
    + apply Forall_app. split; [exact W|]. constructor; [|constructor].
      split; [exact Fp|]. split; [exact Np|].
      eexists. split; [reflexivity|]. split.
      * constructor; [exact Hitem|constructor].
      * constructor; [intros []|constructor].
    + rewrite map_app. apply dict_get_none_keys in G.
      apply NoDup_app; [exact N|constructor; [intros []|constructor]|].
      intros x Hx [<-|[]]. tauto.
Qed.

(** The parser builds structures of two levels. *)
Lemma parse_two_level (anthropic_client : option Client)
  (re_search : bool -> str -> str -> option nat) (soup_get_text : str -> str)
  (fv : str -> str -> str -> str -> list VisualElement)
  (filing_content filing_url : str) :
  match anthropic_client with
  | Some client => claims_addressable client
  | None => True
  end ->
  two_level
    (pf_structure
       (parse_structured_filing anthropic_client re_search soup_get_text fv
          filing_content filing_url)).
Proof.
  intros Hc. unfold parse_structured_filing. cbn [pf_structure].
  destruct anthropic_client as [client|].
  - apply llm_parse_invariant; [|split; constructor].
    intros i prefix analysis info A Hin parsed c v H _.
    destruct (Hc _ _ _ _ A Hin) as (Fp & Np & Fi).
    now apply store_section_two_level.
  - unfold _fallback_parse_structure.
    destruct (find (lower _) mda_phrase 0); [|split; constructor].
    split.
    + constructor; [|constructor].
      split; [reflexivity|]. split; [discriminate|].
      eexists. split; [reflexivity|]. split.
      * constructor; [|constructor]. split; [reflexivity|]. eexists. reflexivity.
      * constructor; [intros []|constructor].
    + constructor; [intros []|constructor].
Qed.

(** X13.  Every path the traversal lists resolves to the section listed
    with it: in a parsed filing, built by the fallback or from claims of
    the oracle whose part and section identifiers have no dot (and whose
    part is not empty), looking up the path of a section returns that
    section. *)
Theorem listed_path_resolves (anthropic_client : option Client)
  (re_search : bool -> str -> str -> option nat) (soup_get_text : str -> str)
  (fv : str -> str -> str -> str -> list VisualElement)
  (filing_content filing_url path : str) (fs : FilingSection) :
  match anthropic_client with
  | Some client => claims_addressable client
  | None => True
  end ->
  In (path, fs)
     (all_sections []
        (pf_structure
           (parse_structured_filing anthropic_client re_search soup_get_text
              fv filing_content filing_url))) ->
  _get_section_by_internal_path
    (parse_structured_filing anthropic_client re_search soup_get_text fv
       filing_content filing_url) path
  = Found fs.
Proof.
  intros Hc. apply two_level_lookup. now apply parse_two_level.
Qed.

Lemma listed_path_resolves_witness :
  exists path fs,
    In (path, fs)
       (all_sections []
          (pf_structure
             (parse_structured_filing
                (Some (client_claiming "item_2" "part_1"))
                no_match plain_text no_visuals doc_small [])))
    /\ path = lit "part_1.item_2"
    /\ _get_section_by_internal_path
         (parse_structured_filing
            (Some (client_claiming "item_2" "part_1"))
            no_match plain_text no_visuals doc_small []) path
       = Found fs.
Proof.
  assert (H : exists entry,
             In entry
                (all_sections []
                   (pf_structure
                      (parse_structured_filing
                         (Some (client_claiming "item_2" "part_1"))
                         no_match plain_text no_visuals doc_small [])))
             /\ fst entry = lit "part_1.item_2")
    by (vm_compute; eexists; split; [left; reflexivity|reflexivity]).
  destruct H as [[path fs] [H E]]. exists path, fs.
  split; [exact H|]. split; [exact E|].
  apply (listed_path_resolves
           (Some (client_claiming "item_2" "part_1"))
           no_match plain_text no_visuals doc_small [] path fs); [|exact H].
  intros i prefix analysis info [= <-] [<-|[]]. repeat split. discriminate.
Defined.

(** ** The fallback parser, further *)

Lemma find_at_first (sub : str) :
  forall s i j,
    find_at sub s i = Some j ->
    forall k, i + k < j -> prefixb sub (skipn k s) = false.
Proof.
  induction s as [|c s IH]; intros i j; simpl.
  - destruct (prefixb sub []); [|discriminate]. intros [= <-] k Hk. lia.
  - destruct (prefixb sub (c :: s)) eqn:E; [intros [= <-] k Hk; lia|].
    intros H [|k] Hk; [exact E|]. simpl. apply (IH _ _ H). lia.
Qed.

(** [find] returns the first occurrence from [start] on, and [None] only
    when there is none. *)
Lemma find_first (s sub : str) (start j : nat) :
  find s sub start = Some j ->
  forall k, start <= k < j -> prefixb sub (skipn k s) = false.
Proof.
  unfold find. destruct (start <=? length s); [|discriminate].
  intros H k Hk. replace k with ((k - start) + start) by lia.
  rewrite <- skipn_skipn. apply (find_at_first _ _ _ _ H). lia.
Qed.

Lemma find_none (s sub : str) (start : nat) :
  find s sub start = None -> start <= length s ->
  forall k, start <= k -> prefixb sub (skipn k s) = false.
Proof.
  unfold find. intros H L. apply Nat.leb_le in L. rewrite L in H.
  intros k Hk. replace k with ((k - start) + start) by lia.
  rewrite <- skipn_skipn.
  destruct (Nat.le_gt_cases (k - start) (length (skipn start s))) as [B|B].
  - exact (find_at_none _ _ _ H _ B).
  - rewrite skipn_all2 by lia.
    pose proof (find_at_none _ _ _ H _ (Nat.le_refl _)) as F.
    now rewrite skipn_all in F.
Qed.

(** An occurrence inside a piece of a text is an occurrence in the text. *)
Lemma contains_slice_occurrence (sub s : str) (a n : nat) :
  sub <> [] ->
  contains sub (firstn n (skipn a s)) = true ->
  exists k, a <= k /\ k + length sub <= a + n /\
            prefixb sub (skipn k s) = true.
Proof.
  intros Hne C. destruct (contains_occurrence _ _ C) as (b & t & E).
  exists (a + length b).
  assert (Hlen : length b + length sub <= n).
  { pose proof (firstn_le_length n (skipn a s)) as L.
    rewrite E, !length_app in L. lia. }
  split; [lia|]. split; [lia|].
  rewrite (Nat.add_comm a), <- skipn_skipn.
  rewrite <- (firstn_skipn n (skipn a s)), E, <- !app_assoc.
  rewrite skipn_app, skipn_all, Nat.sub_diag. cbn [skipn app].
  apply prefixb_app_refl.
Qed.

Lemma fallback_content_stops (text : str) (mda_start : nat) :
  find (lower text) mda_phrase 0 = Some mda_start ->
  contains mda_end_phrase
    (lower (slice mda_start
              match find (lower text) mda_end_phrase mda_start with
              | Some e => e
              | None => mda_start + 50000
              end text)) = false.
Proof.
  intros F. destruct (find_some _ _ _ _ F) as (_ & La & _).
  destruct (contains mda_end_phrase _) eqn:C; [|reflexivity]. exfalso.
  unfold slice, lower in C. rewrite <- firstn_map, <- skipn_map in C.
  fold (lower text) in C.
  apply contains_slice_occurrence in C; [|discriminate].
  destruct C as (k & Hk & Hend & P).
  change (length mda_end_phrase) with 20 in Hend.
  destruct (find (lower text) mda_end_phrase mda_start) as [e|] eqn:E.
  - destruct (find_some _ _ _ _ E) as (Hge & _ & _).
    rewrite (find_first _ _ _ _ E k) in P; [discriminate|lia].
  - rewrite (find_none _ _ _ E La k Hk) in P. discriminate.
Qed.

(** X14.  On an ASCII text the section the fallback builds never contains
    "financial statements", in any case of the letters: the content stops
    before the first occurrence that follows its beginning, and when it is
    cut after 50000 characters there was none. *)
Theorem fallback_content_before_statements
  (re_search : bool -> str -> str -> option nat) (soup_get_text : str -> str)
  (fv : str -> str -> str -> str -> list VisualElement)
  (filing_content filing_url path : str) (fs : FilingSection) :
  ascii_only (_preprocess_filing_content (soup_get_text filing_content))
  = true ->
  In (path, fs)
     (all_sections []
        (pf_structure
           (parse_structured_filing None re_search soup_get_text fv
              filing_content filing_url))) ->
  contains mda_end_phrase (lower (content fs)) = false.
Proof.
  unfold parse_structured_filing. cbn [pf_structure]. intros _ Hin.
  refine (structure_forall_sections
            (fun fs => contains mda_end_phrase (lower (content fs)) = false)
            _ _ _ _ Hin).
  unfold _fallback_parse_structure.
  destruct (find (lower _) mda_phrase 0) as [mda_start|] eqn:F;
    constructor; [|constructor].
  apply value_forall_dict. split; [exact I|].
  constructor; [|constructor].
  cbn [snd value_forall content]. split; [|exact I].
  now apply fallback_content_stops.
Qed.

Lemma fallback_content_before_statements_witness :
  exists path fs,
    In (path, fs)
       (all_sections []
          (pf_structure
             (parse_structured_filing None no_match plain_text no_visuals
                doc_small [])))
    /\ contains mda_end_phrase (lower (content fs)) = false.
Proof.
  assert (H : exists entry,
             In entry
                (all_sections []
                   (pf_structure
                      (parse_structured_filing None no_match plain_text
                         no_visuals doc_small []))))
    by (vm_compute; eexists; left; reflexivity).
  destruct H as [[path fs] H]. exists path, fs. split; [exact H|].
  exact (fallback_content_before_statements no_match plain_text no_visuals
           doc_small [] path fs eq_refl H).
Defined.

(** X15.  What the fallback stores, the search finds: when the fallback
    has built its section out of an ASCII text, a search with a keyword
    that is the phrase "management's discussion and analysis", in any case
    of the letters, returns exactly that section, at the path
    "part_2.item_7". *)
Theorem fallback_section_is_searchable
  (re_search : bool -> str -> str -> option nat) (soup_get_text : str -> str)
  (fv : str -> str -> str -> str -> list VisualElement)
  (filing_content filing_url : str) (keywords : list str) :
  ascii_only (_preprocess_filing_content (soup_get_text filing_content))
  = true ->
  find (lower (_preprocess_filing_content (soup_get_text filing_content)))
       mda_phrase 0 <> None ->
  (exists keyword, In keyword keywords /\ lower keyword = mda_phrase) ->
  exists fs,
    find_content_with_keywords
      (parse_structured_filing None re_search soup_get_text fv
         filing_content filing_url) keywords
    = [ (lit "part_2.item_7", fs) ]
    /\ section_id fs = lit "item_7".
Proof.
  intros _ F (keyword & Hin & Hk).
  unfold find_content_with_keywords, parse_structured_filing.
  cbn [pf_structure]. rewrite search_structure_spec. cbn [app].
  unfold _fallback_parse_structure.
  destruct (find (lower _) mda_phrase 0) as [mda_start|] eqn:E;
    [|congruence].
  eexists. split.
  - unfold all_sections. cbn [flat_map fst snd app].
    rewrite value_sections_dict. unfold all_sections.
    cbn [flat_map fst snd app value_sections filter].
    replace (matches_keywords keywords _) with true; [reflexivity|].
    symmetry. unfold matches_keywords. apply existsb_exists.
    exists keyword. split; [exact Hin|]. rewrite Hk. cbn [content].
    apply (contains_at _ _ 0). cbn [skipn]. now apply mda_slice_prefix.
  - reflexivity.
Qed.

Lemma fallback_section_is_searchable_witness :
  exists fs,
    find_content_with_keywords
      (parse_structured_filing None no_match plain_text no_visuals
         doc_small []) [lit "MANAGEMENT'S Discussion and Analysis"]
    = [ (lit "part_2.item_7", fs) ]
    /\ section_id fs = lit "item_7".
Proof.
  apply (fallback_section_is_searchable no_match plain_text no_visuals
           doc_small [] [lit "MANAGEMENT'S Discussion and Analysis"]).
  - reflexivity.
  - vm_compute. discriminate.
  - eexists. split; [left; reflexivity|reflexivity].
Defined.

(** ** The keyword search, further *)

(** X16.  An empty keyword matches every section: a search whose keywords
    include the empty string returns all the sections of the tree, in the
    order of the traversal. *)
Theorem empty_keyword_matches_all (parsed_filing : ParsedFiling)
  (keywords : list str) :
  In [] keywords ->
  find_content_with_keywords parsed_filing keywords
  = all_sections [] (pf_structure parsed_filing).
Proof.
  intros Hin. unfold find_content_with_keywords.
  rewrite search_structure_spec. cbn [app].
  apply forallb_filter_id. apply forallb_forall. intros entry _.
  unfold matches_keywords. apply existsb_exists.
  exists []. split; [exact Hin|]. apply contains_nil.
Qed.

Lemma empty_keyword_matches_all_witness :
  find_content_with_keywords filing_a_b [lit "zzz"; []]
  = all_sections [] (pf_structure filing_a_b).
Proof.
  apply (empty_keyword_matches_all filing_a_b [lit "zzz"; []]).
  right. left. reflexivity.
Defined.

Lemma matches_keywords_lower (keywords : list str) (fs : FilingSection) :
  matches_keywords keywords fs
  = existsb (fun k => contains k (lower (content fs))) (map lower keywords).
Proof.
  unfold matches_keywords.
  induction keywords as [|k ks IH]; simpl; [reflexivity|]. now rewrite IH.
Qed.

(** X17.  The case of the keywords does not matter: two keyword lists that
    are the same once lower-cased give the same result. *)
Theorem keyword_case_ignored (parsed_filing : ParsedFiling)
  (keywords1 keywords2 : list str) :
  map lower keywords1 = map lower keywords2 ->
  find_content_with_keywords parsed_filing keywords1
  = find_content_with_keywords parsed_filing keywords2.
Proof.
  intros E. unfold find_content_with_keywords.
  rewrite !search_structure_spec. cbn [app].
  apply filter_ext. intros entry. now rewrite !matches_keywords_lower, E.
Qed.

Lemma keyword_case_ignored_witness :
  find_content_with_keywords filing_a_b [lit "ALPHA"]
  = find_content_with_keywords filing_a_b [lit "alpha"].
Proof.
  apply (keyword_case_ignored filing_a_b [lit "ALPHA"] [lit "alpha"]).
  reflexivity.
Defined.

(** ** The contexts of the search tool *)

Lemma slice_length (a b : nat) (s : str) : length (slice a b s) <= b - a.
Proof. unfold slice. apply firstn_le_length. Qed.

Lemma lower_slice (a b : nat) (s : str) :
  lower (slice a b s) = slice a b (lower s).
Proof. unfold slice, lower. now rewrite <- firstn_map, <- skipn_map. Qed.

(** The window around an occurrence holds the occurrence when it is not
    longer than 500 characters. *)
Lemma window_holds_occurrence (sub s : str) (pos : nat) :
  prefixb sub (skipn pos s) = true -> length sub <= 500 ->
  contains sub (slice (pos - 200) (pos + 500) s) = true.
Proof.
  intros P L. destruct (prefixb_app _ _ P) as (t & E).
  apply (contains_at _ _ (pos - (pos - 200))). unfold slice.
  rewrite skipn_firstn_comm, skipn_skipn.
  replace (pos - (pos - 200) + (pos - 200)) with pos by lia.
  rewrite E, firstn_app.
  replace (pos + 500 - (pos - 200) - (pos - (pos - 200))) with 500 by lia.
  rewrite (firstn_all2 sub) by exact L.
  apply prefixb_app_refl.
Qed.

Lemma keyword_contexts_facts (keywords : list str) (section_content : str) :
  Forall (fun kc =>
            In (fst kc) keywords /\
            length (snd kc) <= 700 /\
            (length (fst kc) <= 500 ->
             contains (lower (fst kc)) (lower (snd kc)) = true))
         (keyword_contexts keywords section_content).
Proof.
  induction keywords as [|keyword rest IH]; cbn [keyword_contexts];
    [constructor|].
  cbv zeta. apply Forall_app. split.
  - destruct (contains (lower keyword) (lower section_content)) eqn:C;
      [|constructor].
    destruct (find (lower section_content) (lower keyword) 0) as [pos|] eqn:E.
    + destruct (find_some _ _ _ _ E) as (_ & _ & P).
      constructor; [|constructor]. cbn [fst snd].
      split; [now left|]. split.
      * pose proof (slice_length (pos - 200) (pos + 500) section_content).
        lia.
      * intros L. rewrite lower_slice.
        apply window_holds_occurrence; [exact P|].
        unfold lower. now rewrite length_map.
    + unfold contains in C. unfold find in E. cbn [Nat.leb skipn] in E.
      rewrite E in C. discriminate.
  - eapply Forall_impl; [|exact IH]. intros kc (H1 & H2 & H3).
    split; [now right|]. now split.
Qed.

Lemma keyword_contexts_some (keywords : list str) (fs : FilingSection) :
  matches_keywords keywords fs = true ->
  keyword_contexts keywords (content fs) <> [].
Proof.
  unfold matches_keywords.
  induction keywords as [|keyword rest IH]; cbn [existsb keyword_contexts];
    [discriminate|].
  cbv zeta. destruct (contains (lower keyword) (lower (content fs))).
  - intros _. now destruct (find _ _ 0).
  - cbn [orb app]. exact IH.
Qed.

(** X18.  Every section the search tool reports comes with at least one
    context; a context belongs to one of the keywords asked and is at most
    700 characters long.  When the content of the sections found is ASCII,
    a context holds its keyword (case set aside) if the lower-cased
    keyword has at most 500 characters. *)
Theorem search_contexts (parsed_filing : ParsedFiling) (keywords : list str) :
  Forall (fun found =>
            contexts found <> [] /\
            Forall (fun kc =>
                      In (fst kc) keywords /\ length (snd kc) <= 700)
                   (contexts found))
         (search_filing_content parsed_filing keywords)
  /\ (Forall (fun entry => ascii_only (content (snd entry)) = true)
             (find_content_with_keywords parsed_filing keywords) ->
      Forall (fun found =>
                Forall (fun kc =>
                          length (lower (fst kc)) <= 500 ->
                          contains (lower (fst kc)) (lower (snd kc)) = true)
                       (contexts found))
             (search_filing_content parsed_filing keywords)).
Proof.
  unfold search_filing_content. split.
  - apply Forall_map. cbn [contexts].
    unfold find_content_with_keywords. rewrite search_structure_spec.
    cbn [app]. apply Forall_forall. intros entry Hin.
    apply filter_In in Hin. destruct Hin as [_ M].
    split; [now apply keyword_contexts_some|].
    eapply Forall_impl; [|apply keyword_contexts_facts].
    intros kc (H1 & H2 & _). now split.
  - intros _. apply Forall_map. cbn [contexts].
    apply Forall_forall. intros entry _.
    eapply Forall_impl; [|apply keyword_contexts_facts].
    intros kc (_ & _ & H3) L. apply H3.
    unfold lower in L. now rewrite length_map in L.
Qed.

Lemma search_contexts_witness :
  Forall (fun found =>
            Forall (fun kc =>
                      length (lower (fst kc)) <= 500 ->
                      contains (lower (fst kc)) (lower (snd kc)) = true)
                   (contexts found))
         (search_filing_content filing_a_b [lit "ALPHA"])
  /\ length (search_filing_content filing_a_b [lit "ALPHA"]) = 1.
Proof.
  split; [|reflexivity].
  apply (proj2 (search_contexts filing_a_b [lit "ALPHA"])).
  apply Forall_cons; [reflexivity|apply Forall_nil].
Defined.

(** ** The text of a table and the filter of meaningful tables *)

Lemma one_line_app (a b : str) : one_line (a ++ b) = one_line a && one_line b.
Proof. apply forallb_app. Qed.

Lemma one_line_lstrip (s : str) : one_line s = true -> one_line (lstrip s) = true.
Proof.
  induction s as [|c s IH]; simpl; [reflexivity|]. intros H.
  destruct (is_space c); [|exact H].
  apply andb_true_iff in H. now apply IH.
Qed.

Lemma one_line_rstrip (s : str) : one_line s = true -> one_line (rstrip s) = true.
Proof.
  induction s as [|c s IH]; simpl; [reflexivity|]. intros H.
  apply andb_true_iff in H. destruct H as [Hc Hs]. specialize (IH Hs).
  destruct (rstrip s) as [|d r].
  - destruct (is_space c); [reflexivity|]. simpl. now rewrite Hc.
  - simpl. rewrite Hc. exact IH.
Qed.

Lemma one_line_strip (s : str) : one_line s = true -> one_line (strip s) = true.
Proof. intros H. unfold strip. now apply one_line_lstrip, one_line_rstrip. Qed.

Lemma one_line_row_text (cells : list str) :
  Forall (fun cell => one_line cell = true) cells ->
  one_line (row_text cells) = true.
Proof.
  unfold row_text. induction 1 as [|cell cells Hc _ IH]; [reflexivity|].
  cbn [map join]. destruct (map strip cells) as [|c cs] eqn:E.
  - now apply one_line_strip.
  - rewrite !one_line_app, one_line_strip by exact Hc.
    cbn [andb]. rewrite IH. reflexivity.
Qed.

Lemma table_data_rows (rows : list (list str)) :
  filter (fun row_text => truthy (strip row_text)) (map row_text rows)
  = map row_text (rows_with_content rows).
Proof.
  unfold rows_with_content.
  induction rows as [|cells rows IH]; simpl; [reflexivity|].
  destruct (truthy (strip (row_text cells))); simpl; now rewrite IH.
Qed.

Lemma in_firstn {A} (n : nat) (l : list A) (x : A) :
  In x (firstn n l) -> In x l.
Proof.
  revert l. induction n as [|n IH]; intros [|y l]; simpl; try tauto.
  intros [->|H]; [now left|right; now apply IH].
Qed.

Lemma table_data_one_line (rows : list (list str)) :
  Forall (Forall (fun cell => one_line cell = true)) rows ->
  Forall (fun l => one_line l = true)
         (firstn 20 (map row_text (rows_with_content rows))).
Proof.
  intros H. apply Forall_forall. intros l Hin.
  apply in_firstn, in_map_iff in Hin. destruct Hin as (cells & <- & Hc).
  apply filter_In in Hc. destruct Hc as [Hc _].
  rewrite Forall_forall in H. now apply one_line_row_text, H.
Qed.

(** X19.  When no cell holds a line break and some row has content, the
    text taken from a table has one line for each of the first 20 rows
    with content: at most 20 lines, none of them blank. *)
Theorem table_text_lines (rows : list (list str)) :
  Forall (Forall (fun cell => one_line cell = true)) rows ->
  rows_with_content rows <> [] ->
  split_nl (_extract_table_text rows)
  = firstn 20 (map row_text (rows_with_content rows))
  /\ length (split_nl (_extract_table_text rows)) <= 20
  /\ Forall (fun line => all_blank line = false)
            (split_nl (_extract_table_text rows)).
Proof.
  intros H Hne. unfold _extract_table_text. cbv zeta. rewrite table_data_rows.
  assert (S : split_nl (join_nl (firstn 20 (map row_text (rows_with_content rows))))
              = firstn 20 (map row_text (rows_with_content rows))).
  { apply split_nl_join_nl; [|now apply table_data_one_line].
    destruct (rows_with_content rows); [now destruct Hne|discriminate]. }
  rewrite S. split; [reflexivity|]. split.
  - rewrite length_firstn. lia.
  - apply Forall_forall. intros l Hin.
    apply in_firstn, in_map_iff in Hin. destruct Hin as (c & <- & Hc).
    apply filter_In in Hc. destruct Hc as [_ Hc].
    destruct (all_blank (row_text c)) eqn:B; [|reflexivity].
    apply strip_nil_iff in B. now rewrite B in Hc.
Qed.

Lemma table_text_lines_witness :
  split_nl (_extract_table_text
              [[lit " Premiums "; lit "4,200"]; [lit " "; lit ""];
               [lit "Losses"; lit "2,900 "]])
  = firstn 20
      (map row_text
         (rows_with_content
            [[lit " Premiums "; lit "4,200"]; [lit " "; lit ""];
             [lit "Losses"; lit "2,900 "]]))
  /\ length (split_nl (_extract_table_text
              [[lit " Premiums "; lit "4,200"]; [lit " "; lit ""];
               [lit "Losses"; lit "2,900 "]])) <= 20
  /\ Forall (fun line => all_blank line = false)
       (split_nl (_extract_table_text
              [[lit " Premiums "; lit "4,200"]; [lit " "; lit ""];
               [lit "Losses"; lit "2,900 "]])).
Proof.
  apply (table_text_lines
           [[lit " Premiums "; lit "4,200"]; [lit " "; lit ""];
            [lit "Losses"; lit "2,900 "]]).
  - repeat constructor.
  - vm_compute. discriminate.
Defined.

(** X20.  A table with fewer than three rows with content is never
    meaningful, whatever the rows hold, when no cell holds a line
    break. *)
Theorem few_rows_never_meaningful (rows : list (list str)) :
  Forall (Forall (fun cell => one_line cell = true)) rows ->
  length (rows_with_content rows) < 3 ->
  _is_meaningful_table (_extract_table_text rows) = false.
Proof.
  intros H L. unfold _is_meaningful_table.
  destruct (negb (truthy (_extract_table_text rows))
            || (length (_extract_table_text rows) <? 50)) eqn:G;
    [reflexivity|].
  cbv zeta.
  assert (S : split_nl (_extract_table_text rows)
              = map row_text (rows_with_content rows)).
  { unfold _extract_table_text in *. cbv zeta in *.
    rewrite table_data_rows in *.
    destruct (rows_with_content rows) as [|cells kept] eqn:E;
      [discriminate G|].
    rewrite <- E in *.
    rewrite split_nl_join_nl;
      [|rewrite E; discriminate|now apply table_data_one_line].
    apply firstn_all2. rewrite length_map. lia. }
  rewrite S.
  match goal with
  | |- (if length (filter ?f ?l) <? 3 then _ else _) = _ =>
      pose proof (filter_length_le f l) as F
  end.
  rewrite length_map in F.
  match goal with
  | |- (if ?b then _ else _) = _ => replace b with true; [reflexivity|]
  end.
  symmetry. apply Nat.ltb_lt. lia.
Qed.

Lemma few_rows_never_meaningful_witness :
  _is_meaningful_table
    (_extract_table_text
       [[lit "Net premiums earned, in millions of dollars"; lit "$ 4,200"];
        [lit "Net investment income, in millions"; lit "$ 310"]])
  = false.
Proof.
  apply (few_rows_never_meaningful
           [[lit "Net premiums earned, in millions of dollars"; lit "$ 4,200"];
            [lit "Net investment income, in millions"; lit "$ 310"]]).
  - repeat constructor.
  - vm_compute. lia.
Defined.

(** ** Looking a section up by its path *)

Lemma collect_value_dict (path : str) (sec : option FilingSection)
  (st : structure) (available_paths : list (str * FilingSection)) :
  collect_value path (VDict sec (Some st)) available_paths
  = collect_paths path st
      match sec with
      | Some section => available_paths ++ [(path, section)]
      | None => available_paths
      end.
Proof.
  simpl. generalize (match sec with
                     | Some section => available_paths ++ [(path, section)]
                     | None => available_paths
                     end).
  induction st as [|[k v] st IH]; intros r; simpl; [reflexivity|apply IH].
Qed.

Lemma collect_value_spec (v : value) :
  forall path available_paths,
    collect_value path v available_paths
    = available_paths ++ value_sections path v.
Proof.
  induction v as [|sec|sec st IH] using value_nested_ind; intros path acc.
  - simpl. now rewrite app_nil_r.
  - simpl. destruct sec; [reflexivity|now rewrite app_nil_r].
  - rewrite collect_value_dict, value_sections_dict.
    assert (Hst : forall r,
               collect_paths path st r = r ++ all_sections path st).
    { unfold all_sections.
      induction IH as [|[k v] st Hv _ IHst]; intros r; simpl.
      - now rewrite app_nil_r.
      - rewrite IHst. simpl in Hv. rewrite Hv. now rewrite app_assoc. }
    rewrite Hst. destruct sec; [now rewrite <- app_assoc|reflexivity].
Qed.

Lemma collect_paths_spec (st : structure) :
  forall path available_paths,
    collect_paths path st available_paths
    = available_paths ++ all_sections path st.
Proof.
  unfold all_sections.
  induction st as [|[k v] st IH]; intros path acc; simpl.
  - now rewrite app_nil_r.
  - rewrite IH, collect_value_spec. now rewrite app_assoc.
Qed.

(** A walk that ends on a section ends on a section of the tree. *)
Lemma walk_path_found (parts : list str) :
  forall st prefix fs,
    walk_path parts (AtDict st) = Found fs ->
    In fs (map snd (all_sections prefix st)).
Proof.
  induction parts as [|part rest IH]; intros st prefix fs; cbn [walk_path].
  - destruct (dict_get _ st); discriminate.
  - destruct (dict_get part st) as [v|] eqn:G; [|discriminate].
    destruct (dict_get_some_in _ _ _ G) as (k & _ & Hin).
    assert (Hv : forall e, In e (value_sections (join_path prefix k) v) ->
                           In (snd e) (map snd (all_sections prefix st))).
    { intros e He. apply in_map. unfold all_sections. apply in_flat_map.
      exists (k, v). split; [exact Hin|exact He]. }
    destruct v as [|sec [subs|]]; cbn [step_into]; [discriminate| |].
    + intros W. specialize (IH _ (join_path prefix k) _ W).
      apply in_map_iff in IH. destruct IH as (e & <- & He).
      apply Hv. rewrite value_sections_dict. apply in_or_app. now right.
    + destruct rest as [|part' rest]; cbn [walk_path].
      * destruct sec as [fs'|]; [|discriminate]. intros [= <-].
        apply (Hv (join_path prefix k, fs')). simpl. now left.
      * destruct sec; [|discriminate].
        destruct (str_eqb part' (lit "section")); discriminate.
Qed.

Lemma internal_path_found (parsed_filing : ParsedFiling) (path : str)
  (fs : FilingSection) :
  _get_section_by_internal_path parsed_filing path = Found fs ->
  In fs (map snd (all_sections [] (pf_structure parsed_filing))).
Proof. apply walk_path_found. Qed.

(** X21.  A lookup by path never makes a section up: whatever the path
    asked and whatever the mapping service replies, a section the lookup
    returns is one of the sections of the filing. *)
Theorem lookup_returns_stored_section (anthropic_client : option path_oracle)
  (parsed_filing : ParsedFiling) (path : str) (fs : FilingSection) :
  get_section_by_path anthropic_client parsed_filing path = Found fs ->
  In fs (map snd (all_sections [] (pf_structure parsed_filing))).
Proof.
  unfold get_section_by_path, _fallback_path_lookup.
  destruct anthropic_client as [reply|]; [|apply internal_path_found].
  destruct (collect_paths [] (pf_structure parsed_filing) []) as [|e es];
    [discriminate|].
  destruct (reply path _) as [text|]; [|apply internal_path_found].
  destruct (truthy (strip text) && negb (str_eqb (strip text) (lit "NOT_FOUND")));
    [|apply internal_path_found].
  destruct (_get_section_by_internal_path parsed_filing (strip text))
    as [fs'| | |] eqn:E; try discriminate.
  - intros [= <-]. now apply internal_path_found in E.
  - apply internal_path_found.
Qed.

Lemma lookup_returns_stored_section_witness :
  In (plain_section "item_1" "contains ALPHA term")
     (map snd (all_sections [] (pf_structure filing_a_b))).
Proof.
  apply (lookup_returns_stored_section
           (Some (fun _ _ => Some (lit "NOT_FOUND")))
           filing_a_b (lit "Part1.Item1")).
  reflexivity.
Defined.

(** X22.  When the mapping service replies with the path of a section it
    was offered (blanks around it aside), the lookup returns that section;
    this holds in a parsed filing built by the fallback or from claims of
    the oracle whose part and section identifiers have no dot (and whose
    part is not empty). *)
Theorem oracle_choice_resolves (anthropic_client : option Client)
  (re_search : bool -> str -> str -> option nat) (soup_get_text : str -> str)
  (fv : str -> str -> str -> str -> list VisualElement)
  (filing_content filing_url : str) (reply : path_oracle)
  (path text : str) (fs : FilingSection) :
  match anthropic_client with
  | Some client => claims_addressable client
  | None => True
  end ->
  reply path
        (firstn 20
           (collect_paths []
              (pf_structure
                 (parse_structured_filing anthropic_client re_search
                    soup_get_text fv filing_content filing_url)) []))
  = Some text ->
  In (strip text, fs)
     (collect_paths []
        (pf_structure
           (parse_structured_filing anthropic_client re_search soup_get_text
              fv filing_content filing_url)) []) ->
  get_section_by_path (Some reply)
    (parse_structured_filing anthropic_client re_search soup_get_text fv
       filing_content filing_url) path
  = Found fs.
Proof.
  intros Hc. pose proof (parse_two_level _ re_search soup_get_text fv
                           filing_content filing_url Hc) as T.
  generalize dependent (parse_structured_filing anthropic_client re_search
                          soup_get_text fv filing_content filing_url).
  intros pf T R Hin. unfold get_section_by_path.
  destruct (collect_paths [] (pf_structure pf) []) as [|e es] eqn:C;
    [destruct Hin|].
  rewrite R. cbv zeta.
  rewrite <- C, collect_paths_spec in Hin. cbn [app] in Hin.
  destruct (two_level_sections _ _ _ (proj1 T) Hin)
    as (part & items & id & _ & _ & Fp & _ & _ & E).
  assert (Hne : truthy (strip text) = true).
  { rewrite E. destruct part; reflexivity. }
  assert (Hnf : str_eqb (strip text) (lit "NOT_FOUND") = false).
  { destruct (str_eqb (strip text) (lit "NOT_FOUND")) eqn:Q; [|reflexivity].
    apply str_eqb_eq in Q. rewrite E in Q.
    assert (D : In dot (part ++ dot :: id)) by (apply in_or_app; right; now left).
    rewrite Q in D. simpl in D.
    repeat (destruct D as [D|D]; [discriminate D|]). destruct D. }
  rewrite Hne, Hnf. cbn [negb andb].
  now rewrite (two_level_lookup pf _ _ T Hin).
Qed.

Lemma oracle_choice_resolves_witness :
  exists fs,
    section_id fs = lit "item_2" /\
    get_section_by_path (Some (fun _ _ => Some (lit " part_1.item_2 ")))
      (parse_structured_filing (Some (client_claiming "item_2" "part_1"))
         no_match plain_text no_visuals doc_small [])
      (lit "Item 2")
    = Found fs.
Proof.
  assert (H : exists fs,
             In (lit "part_1.item_2", fs)
                (collect_paths []
                   (pf_structure
                      (parse_structured_filing
                         (Some (client_claiming "item_2" "part_1"))
                         no_match plain_text no_visuals doc_small [])) [])
             /\ section_id fs = lit "item_2")
    by (vm_compute; eexists; split; [left; reflexivity|reflexivity]).
  destruct H as (fs & H & E). exists fs. split; [exact E|].
  apply (oracle_choice_resolves
           (Some (client_claiming "item_2" "part_1"))
           no_match plain_text no_visuals doc_small []
           (fun _ _ => Some (lit " part_1.item_2 "))
           (lit "Item 2") (lit " part_1.item_2 ") fs).
  - intros i prefix analysis info [= <-] [<-|[]]. repeat split. discriminate.
  - reflexivity.
  - exact H.
Defined.

(** ** The fallback of the lookup *)

Lemma contains_false_all (sub s : str) :
  contains sub s = false -> forall k, prefixb sub (skipn k s) = false.
Proof.
  intros H k. destruct (prefixb sub (skipn k s)) eqn:P; [|reflexivity].
  now rewrite (contains_at _ _ _ P) in H.
Qed.

Lemma replace_absent (old new s : str) :
  contains old s = false -> replace old new s = s.
Proof.
  unfold replace. induction s as [|c s IH]; intros H; [reflexivity|].
  cbn [replace_from].
  rewrite (contains_false_all _ _ H 0 : prefixb old (c :: s) = false).
  f_equal. apply IH.
  destruct (contains old s) eqn:C; [|reflexivity].
  unfold contains in C. destruct (find_at old s 0) eqn:F; [|discriminate].
  destruct (find_at_some _ _ _ _ F) as (k & _ & _ & P).
  now rewrite (contains_false_all _ _ H (S k) : prefixb old (skipn k s) = false) in P.
Qed.

(** X23.  On a path in lower case that holds none of the seven spellings
    the fallback rewrites, the fallback is the exact lookup. *)
Theorem canonical_path_fallback (parsed_filing : ParsedFiling) (path : str) :
  lower path = path ->
  Forall (fun alias => contains alias path = false) alias_keys ->
  _fallback_path_lookup parsed_filing path
  = _get_section_by_internal_path parsed_filing path.
Proof.
  intros L A. unfold _fallback_path_lookup. f_equal.
  unfold normalize_path. cbv zeta. rewrite L.
  rewrite Forall_forall in A.
  rewrite (replace_absent (lit "part1") _ path) by (apply A; simpl; tauto).
  rewrite (replace_absent (lit "parti") _ path) by (apply A; simpl; tauto).
  rewrite (replace_absent (lit "part2") _ path) by (apply A; simpl; tauto).
  rewrite (replace_absent (lit "partii") _ path) by (apply A; simpl; tauto).
  rewrite (replace_absent (lit "item1a") _ path) by (apply A; simpl; tauto).
  rewrite (replace_absent (lit "item7") _ path) by (apply A; simpl; tauto).
  apply replace_absent. apply A. simpl. tauto.
Qed.

Lemma canonical_path_fallback_witness :
  _fallback_path_lookup filing_a_b (lit "part_1.item_2")
  = _get_section_by_internal_path filing_a_b (lit "part_1.item_2").
Proof.
  apply (canonical_path_fallback filing_a_b (lit "part_1.item_2")).
  - reflexivity.
  - unfold alias_keys. cbn [map].
    repeat (apply Forall_cons; [reflexivity|]). apply Forall_nil.
Defined.

Lemma normalize_part_ii (head rest : str) :
  lower head = lit "partii." ->
  normalize_path (head ++ rest) = lit "part_1i." ++ normalize_path rest.
Proof.
  intros L. unfold normalize_path. cbv zeta.
  unfold lower at 1. rewrite map_app. fold (lower head). fold (lower rest).
  rewrite L. reflexivity.
Qed.

(** X24.  The rule for the spelling "partii" comes after the rule for
    "parti" and never sees it: the fallback sends a path that begins with
    "PartII." (in any case) under the key "part_1i", so that it finds
    nothing in a filing that has no such part. *)
Theorem part_ii_never_found (parsed_filing : ParsedFiling) (head rest : str) :
  lower head = lit "partii." ->
  dict_get (lit "part_1i") (pf_structure parsed_filing) = None ->
  _fallback_path_lookup parsed_filing (head ++ rest) = NotFound.
Proof.
  intros L G. unfold _fallback_path_lookup, _get_section_by_internal_path.
  rewrite (normalize_part_ii _ _ L).
  change (lit "part_1i." ++ normalize_path rest)
    with (lit "part_1i" ++ dot :: normalize_path rest).
  rewrite split_char_app by reflexivity.
  cbn [walk_path]. now rewrite G.
Qed.

Lemma part_ii_never_found_witness :
  _fallback_path_lookup
    (parse_structured_filing None no_match plain_text no_visuals
       doc_small [])
    (lit "PartII." ++ lit "Item7")
  = NotFound
  /\ exists fs,
       _fallback_path_lookup
         (parse_structured_filing None no_match plain_text no_visuals
            doc_small [])
         (lit "Part2.Item7")
       = Found fs.
Proof.
  split.
  - apply (part_ii_never_found
             (parse_structured_filing None no_match plain_text no_visuals
                doc_small [])
             (lit "PartII.") (lit "Item7")); reflexivity.
  - vm_compute. eexists. reflexivity.
Defined.

(** ** The descriptions of the outline *)

(** X25.  A section identifier has a description exactly when it is one of
    the item identifiers of the outline: the parts, "signatures" and every
    identifier outside the outline get the empty description. *)
Theorem description_known_items (section_id : str) :
  _get_section_description section_id <> [] <-> In section_id outline_items.
Proof.
  unfold _get_section_description, outline_items, FORM_10K_STRUCTURE.
  cbn [description_in flat_map snd map fst app dict_get].
  repeat match goal with
         | |- context [str_eqb section_id ?k] =>
             let E := fresh "E" in
             destruct (str_eqb section_id k) eqn:E;
             [apply str_eqb_eq in E; subst section_id;
              split; [intros _; simpl; tauto|intros _; discriminate]|]
         end.
  split; [intros H; now destruct H|].
  intros H. simpl in H.
  repeat match goal with
         | H : _ \/ _ |- _ => destruct H as [H|H]
         | H : _ = section_id |- _ =>
             subst section_id; rewrite str_eqb_refl in *; discriminate
         end.
  destruct H.
Qed.
